(** * llm-chat-app: the chat worker's request core, verified

    A shallow embedding of [src/index.ts]: the conversation sanitizer
    [buildModelInput], the response-text extraction and the error
    classification of [handleChatRequest].

    The worker handles values that arrive as JSON ([request.json()], the
    result of [env.AI.run], the caught [error]), so the program is modelled
    over the run-time values of the language rather than over the declared
    TypeScript types: a property read on [null] throws, a comparison with
    [===] looks at the run-time tag, and so on. *)

From Stdlib Require Import ZArith String Ascii List Lia Bool.
From stdpp Require Import base option list strings gmap pretty.

Local Open Scope Z_scope.
Set Warnings "-register-all".

(** ** Run-time values

    Plain data, as [JSON.parse] produces it.
    - Strings are sequences of code units below 256 (Rocq's [ascii]).
    - Numbers are the integers; the program only tests numbers for
      truthiness and compares them with the literals 2016 and 2017.
    - An object is its list of own properties in insertion order; a read
      returns the first binding of the key. *)

Inductive JsVal : Type :=
| JUndefined
| JNull
| JBool (b : bool)
| JNum (n : Z)
| JStr (s : string)
| JArr (items : list JsVal)
| JObj (fields : list (string * JsVal)).

(** ** Completions: a computation returns a value or throws one *)

Inductive Result (A : Type) : Type :=
| Ok (a : A)
| Throw (e : JsVal).
Arguments Ok {A} a.
Arguments Throw {A} e.

Definition bind {A B} (m : Result A) (k : A -> Result B) : Result B :=
  match m with
  | Ok a => k a
  | Throw e => Throw e
  end.

Notation "'let*' x ':=' m 'in' k" := (bind m (fun x => k))
  (at level 10, x name, m at level 100, k at level 200).

(** [try { m } catch (e) { h e }] *)
Definition try_catch {A} (m : Result A) (h : JsVal -> Result A) : Result A :=
  match m with
  | Ok a => Ok a
  | Throw e => h e
  end.

(** The error object the engine throws; the message text is the engine's. *)
Definition TypeError (msg : string) : JsVal :=
  JObj [("name", JStr "TypeError"); ("message", JStr msg)].

(** ** Primitive operations of the language *)

(** ToBoolean *)
Definition truthy (v : JsVal) : bool :=
  match v with
  | JUndefined | JNull => false
  | JBool b => b
  | JNum n => negb (n =? 0)
  | JStr s => negb (String.eqb s EmptyString)
  | JArr _ | JObj _ => true
  end.

Definition typeof (v : JsVal) : string :=
  match v with
  | JUndefined => "undefined"
  | JNull | JArr _ | JObj _ => "object"
  | JBool _ => "boolean"
  | JNum _ => "number"
  | JStr _ => "string"
  end.

Definition Array_isArray (v : JsVal) : bool :=
  match v with JArr _ => true | _ => false end.

(** [v === lit] for a primitive [lit]. Objects and arrays compare by
    identity, so they are never equal to a literal. *)
Definition strict_eq (v lit : JsVal) : bool :=
  match v, lit with
  | JUndefined, JUndefined => true
  | JNull, JNull => true
  | JBool a, JBool b => Bool.eqb a b
  | JNum a, JNum b => a =? b
  | JStr a, JStr b => String.eqb a b
  | _, _ => false
  end.

Fixpoint own_property (fields : list (string * JsVal)) (k : string) : option JsVal :=
  match fields with
  | [] => None
  | (k', v) :: rest => if String.eqb k' k then Some v else own_property rest k
  end.

(** [v.k] for a property name [k] that is not an array index. None of the
    names the program reads ([role], [content], [type], [text], [output],
    [response], [choices], [message], [result], [error], [code]) is defined
    on a built-in prototype, so a read finds an own property or
    [undefined]. *)
Definition get_prop (v : JsVal) (k : string) : Result JsVal :=
  match v with
  | JUndefined =>
      Throw (TypeError ("Cannot read properties of undefined (reading '" +:+ k +:+ "')"))
  | JNull =>
      Throw (TypeError ("Cannot read properties of null (reading '" +:+ k +:+ "')"))
  | JBool _ | JNum _ => Ok JUndefined
  | JStr s =>
      if String.eqb k "length" then Ok (JNum (Z.of_nat (String.length s)))
      else Ok JUndefined
  | JArr items =>
      if String.eqb k "length" then Ok (JNum (Z.of_nat (length items)))
      else Ok JUndefined
  | JObj fields => Ok (default JUndefined (own_property fields k))
  end.

(** [v[i]] for a literal index [i] *)
Definition get_index (v : JsVal) (i : nat) : Result JsVal :=
  match v with
  | JUndefined =>
      Throw (TypeError ("Cannot read properties of undefined (reading '" +:+ pretty i +:+ "')"))
  | JNull =>
      Throw (TypeError ("Cannot read properties of null (reading '" +:+ pretty i +:+ "')"))
  | JBool _ | JNum _ => Ok JUndefined
  | JStr s =>
      match String.get i s with
      | Some c => Ok (JStr (String c EmptyString))
      | None => Ok JUndefined
      end
  | JArr items => Ok (default JUndefined (items !! i))
  | JObj fields => Ok (default JUndefined (own_property fields (pretty i)))
  end.

(** [v?.k]: [undefined] when [v] is [null] or [undefined] *)
Definition get_prop_opt (v : JsVal) (k : string) : Result JsVal :=
  match v with
  | JUndefined | JNull => Ok JUndefined
  | _ => get_prop v k
  end.

(** [arr.find(pred)] with a callback that may throw *)
Fixpoint Array_find (pred : JsVal -> Result bool) (items : list JsVal) : Result JsVal :=
  match items with
  | [] => Ok JUndefined
  | item :: rest =>
      let* hit := pred item in
      if hit then Ok item else Array_find pred rest
  end.

Fixpoint has_own (fields : list (string * JsVal)) (k : string) : bool :=
  match fields with
  | [] => false
  | (k', _) :: rest => String.eqb k' k || has_own rest k
  end.

(** *** Strings and the two regular expressions of the program *)

Definition nl : string := String "010"%char EmptyString.

(** Canonicalize of a case-insensitive pattern without the [u] flag: the
    code unit's upper case. Among the code units below 256 only [a]-[z]
    change to a unit that an ASCII pattern can contain. *)
Definition Canonicalize (c : ascii) : ascii :=
  let n := nat_of_ascii c in
  if ((97 <=? n) && (n <=? 122))%nat then ascii_of_nat (n - 32) else c.

Fixpoint prefix_ci (pat s : string) : bool :=
  match pat, s with
  | EmptyString, _ => true
  | String _ _, EmptyString => false
  | String a pat', String b s' =>
      Ascii.eqb (Canonicalize a) (Canonicalize b) && prefix_ci pat' s'
  end.

(** [/pat/i.test(s)] for a pattern [pat] of literal characters: some
    position of [s] starts a case-insensitive occurrence of [pat]. *)
Fixpoint search_ci (pat s : string) : bool :=
  prefix_ci pat s ||
  match s with
  | EmptyString => false
  | String _ s' => search_ci pat s'
  end.

(** [array[i]], [undefined] out of range *)
Definition array_at (l : list JsVal) (i : nat) : JsVal :=
  default JUndefined (l !! i).

(** [set.has(v)] on a [Set<string>]: only a string can be a member. *)
Definition Set_has (set : gset string) (v : JsVal) : bool :=
  match v with
  | JStr s => bool_decide (s ∈ set)
  | _ => false
  end.

(** ** Configuration constants *)

Definition MODEL_ID : string := "@cf/openai/gpt-oss-120b".
Definition AI_GATEWAY_ID : string := "new-gateway".
Definition SYSTEM_PROMPT : string :=
  "You are a helpful, friendly assistant. Provide concise and accurate responses.".
Definition SAFETY_SHIM : string :=
  "If a user asks for illegal, violent, or harmful instructions, refuse briefly and suggest safer, educational alternatives.".

Section Sanitizer.

(** Number::toString, the engine's rendering of a number in a template
    literal. *)
Variable NumberToString : Z -> string.

(** ToString, as a template literal [`${v}`] applies it. An array is
    joined with commas ([null] and [undefined] elements render empty); a
    plain object renders as [[object Object]] unless an own [toString]
    property, which is data and not callable, hides the inherited method:
    then the conversion throws. *)
Fixpoint ToString (v : JsVal) : Result string :=
  match v with
  | JUndefined => Ok "undefined"
  | JNull => Ok "null"
  | JBool true => Ok "true"
  | JBool false => Ok "false"
  | JNum n => Ok (NumberToString n)
  | JStr s => Ok s
  | JArr items =>
      (fix join_items (l : list JsVal) : Result string :=
         match l with
         | [] => Ok EmptyString
         | x :: rest =>
             let* s := match x with
                       | JUndefined | JNull => Ok EmptyString
                       | _ => ToString x
                       end in
             match rest with
             | [] => Ok s
             | _ => let* r := join_items rest in Ok (s +:+ "," +:+ r)
             end
         end) items
  | JObj fields =>
      if has_own fields "toString"
      then Throw (TypeError "Cannot convert object to primitive value")
      else Ok "[object Object]"
  end.

(** ** [buildModelInput] *)

Record ModelInput : Type := { instructions : string; input : JsVal }.

(** [m.role === "assistant" && typeof m.content === "string" &&
    /blocked by guardrails/i.test(m.content)] *)
Definition looksLikeGuardrailNotice (m : JsVal) : Result bool :=
  let* role := get_prop m "role" in
  if strict_eq role (JStr "assistant") then
    let* content := get_prop m "content" in
    if String.eqb (typeof content) "string" then
      let* content := get_prop m "content" in
      let* text := ToString content in
      Ok (search_ci "blocked by guardrails" text)
    else Ok false
  else Ok false.

(** [m.role === "user" && typeof m.content === "string" &&
    blockedUserContents.has(m.content)] *)
Definition isBlockedUserContent (blockedUserContents : gset string) (m : JsVal)
  : Result bool :=
  let* role := get_prop m "role" in
  if strict_eq role (JStr "user") then
    let* content := get_prop m "content" in
    if String.eqb (typeof content) "string" then
      let* content := get_prop m "content" in
      Ok (Set_has blockedUserContents content)
    else Ok false
  else Ok false.

(** [cleaned.length && cleaned[cleaned.length - 1].role === "user"] *)
Definition lastIsUser (cleaned : list JsVal) : Result bool :=
  if negb (length cleaned =? 0)%nat then
    let* role := get_prop (array_at cleaned (length cleaned - 1)) "role" in
    Ok (strict_eq role (JStr "user"))
  else Ok false.

(** One iteration of the loop over [raw]: the body with [m = raw[i]] and
    the accumulator [cleaned] (a [continue] returns it unchanged, [push]
    appends at the end, [pop] removes the last entry). *)
Definition clean_step (blockedUserContents : gset string)
    (cleaned : list JsVal) (m : JsVal) : Result (list JsVal) :=
  let* role := get_prop m "role" in
  if strict_eq role (JStr "system") then Ok cleaned
  else
    let* blocked := isBlockedUserContent blockedUserContents m in
    if blocked then Ok cleaned
    else
      let* notice := looksLikeGuardrailNotice m in
      if notice then
        let* pop := lastIsUser cleaned in
        if pop then Ok (removelast cleaned) else Ok cleaned
      else Ok (cleaned ++ [m]).

(** [for (let i = 0; i < raw.length; i++)] from entry [i] on *)
Fixpoint clean_loop (blockedUserContents : gset string)
    (raw : list JsVal) (cleaned : list JsVal) : Result (list JsVal) :=
  match raw with
  | [] => Ok cleaned
  | m :: rest =>
      let* cleaned' := clean_step blockedUserContents cleaned m in
      clean_loop blockedUserContents rest cleaned'
  end.

(** [cleaned.length > 16 ? cleaned.slice(cleaned.length - 16) : cleaned] *)
Definition window (cleaned : list JsVal) : list JsVal :=
  if (16 <? length cleaned)%nat then drop (length cleaned - 16) cleaned
  else cleaned.

(** The callback of [windowed.map] *)
Definition render (m : JsVal) : Result string :=
  let* role := get_prop m "role" in
  if strict_eq role (JStr "user") then
    let* content := get_prop m "content" in
    let* text := ToString content in
    Ok ("User: " +:+ text)
  else
    let* role := get_prop m "role" in
    if strict_eq role (JStr "assistant") then
      let* content := get_prop m "content" in
      let* text := ToString content in
      Ok ("Assistant: " +:+ text)
    else Ok EmptyString.

Fixpoint Array_map {A B} (f : A -> Result B) (l : list A) : Result (list B) :=
  match l with
  | [] => Ok []
  | x :: rest =>
      let* y := f x in
      let* ys := Array_map f rest in
      Ok (y :: ys)
  end.

(** [.map(...).filter(Boolean).join("\n\n")] *)
Definition conversationText (windowed : list JsVal) : Result string :=
  let* rendered := Array_map render windowed in
  Ok (String.concat (nl +:+ nl)
        (List.filter (fun s => truthy (JStr s)) rendered)).

Definition the_instructions : string :=
  SYSTEM_PROMPT +:+ nl +:+ nl +:+ "Safety: " +:+ SAFETY_SHIM.

(** Lines 112-132: the formatting of the windowed messages *)
Definition formatInput (windowed : list JsVal) : Result ModelInput :=
  let* single :=
    if (length windowed =? 1)%nat then
      let* role := get_prop (array_at windowed 0) "role" in
      Ok (strict_eq role (JStr "user"))
    else Ok false in
  if single then
    let* content := get_prop (array_at windowed 0) "content" in
    Ok {| instructions := the_instructions; input := content |}
  else
    let* text := conversationText windowed in
    Ok {| instructions := the_instructions; input := JStr text |}.

Definition buildModelInput (raw : list JsVal) (blockedUserContents : gset string)
  : Result ModelInput :=
  let* cleaned := clean_loop blockedUserContents raw [] in
  formatInput (window cleaned).

End Sanitizer.

(** ** Response extraction (lines 215-254 of [handleChatRequest]) *)

(** The elements [find] visits *)
Definition elements (v : JsVal) : list JsVal :=
  match v with JArr items => items | _ => [] end.

(** [(item) => item.type === ty] *)
Definition hasType (ty : string) (item : JsVal) : Result bool :=
  let* t := get_prop item "type" in
  Ok (strict_eq t (JStr ty)).

Definition PARSE_FAILURE : string := "Error: Could not parse AI response".

(** The structured path, lines 225-236: the new value of [responseText] *)
Definition structuredText (resp responseText : JsVal) : Result JsVal :=
  let* has_output :=
    let* output := get_prop resp "output" in
    if truthy output then
      let* output := get_prop resp "output" in
      Ok (Array_isArray output)
    else Ok false in
  if has_output then
    let* output := get_prop resp "output" in
    let* messageOutput := Array_find (hasType "message") (elements output) in
    let* has_content :=
      if truthy messageOutput then
        let* content := get_prop messageOutput "content" in
        if truthy content then
          let* content := get_prop messageOutput "content" in
          Ok (Array_isArray content)
        else Ok false
      else Ok false in
    if has_content then
      let* content := get_prop messageOutput "content" in
      let* textContent := Array_find (hasType "output_text") (elements content) in
      let* has_text :=
        if truthy textContent then
          let* text := get_prop textContent "text" in
          Ok (truthy text)
        else Ok false in
      if has_text then get_prop textContent "text" else Ok responseText
    else Ok responseText
  else Ok responseText.

(** The fallback chain, lines 239-253 *)
Definition fallbackText (resp : JsVal) : Result JsVal :=
  let* response := get_prop resp "response" in
  if truthy response then get_prop resp "response"
  else
    let* content := get_prop resp "content" in
    if truthy content then get_prop resp "content"
    else
      let* from_choices :=
        let* choices := get_prop resp "choices" in
        if truthy choices then
          let* choices := get_prop resp "choices" in
          let* first := get_index choices 0 in
          let* message := get_prop_opt first "message" in
          let* content := get_prop_opt message "content" in
          Ok (truthy content)
        else Ok false in
      if from_choices then
        let* choices := get_prop resp "choices" in
        let* first := get_index choices 0 in
        let* message := get_prop first "message" in
        get_prop message "content"
      else
        let* from_result :=
          let* result := get_prop resp "result" in
          if truthy result then
            let* result := get_prop resp "result" in
            let* response := get_prop result "response" in
            Ok (truthy response)
          else Ok false in
        if from_result then
          let* result := get_prop resp "result" in
          get_prop result "response"
        else Ok (JStr PARSE_FAILURE).

Definition extractResponseText (aiResponse : JsVal) : Result JsVal :=
  let responseText := JStr EmptyString in
  if String.eqb (typeof aiResponse) "string" then Ok aiResponse
  else if truthy aiResponse && String.eqb (typeof aiResponse) "object" then
    let resp := aiResponse in
    let* responseText := structuredText resp responseText in
    if negb (truthy responseText) then fallbackText resp
    else Ok responseText
  else Ok responseText.

(** ** The [catch] block of [handleChatRequest] *)

(** A [Response]: [body] is the value handed to [JSON.stringify]. *)
Record Response : Type :=
  { status : Z; headers : list (string * string); body : JsVal }.

Definition is_line_terminator (c : ascii) : bool :=
  Ascii.eqb c "010" || Ascii.eqb c "013".

(** [.*\}] matched at the start of [s], by backtracking: [.] takes any
    character but a line terminator and [*] is greedy, so the longer match
    is tried first. *)
Fixpoint dot_star_brace (s : string) : option string :=
  match s with
  | EmptyString => None
  | String c rest =>
      match (if is_line_terminator c then None else dot_star_brace rest) with
      | Some m => Some (String c m)
      | None => if Ascii.eqb c "}" then Some (String c EmptyString) else None
      end
  end.

(** [s.match(/\{.*\}/)]: the match at the leftmost position that has one
    ([jsonMatch[0]]), or [None] for [null]. *)
Fixpoint match_braces (s : string) : option string :=
  match s with
  | EmptyString => None
  | String c rest =>
      match (if Ascii.eqb c "{" then dot_star_brace rest else None) with
      | Some m => Some (String c m)
      | None => match_braces rest
      end
  end.

Definition json_headers : list (string * string) :=
  [("Content-Type", "application/json")].

Definition PROMPT_DETAILS_GATEWAY : string :=
  "Your message was blocked by your organization's AI Gateway security policy. This may be due to content that violates safety guidelines including: hate speech, violence, self-harm, explicit content, or other harmful material.".
Definition PROMPT_DETAILS_DIRECT : string :=
  "Your message was blocked due to security policy.".
Definition RESPONSE_DETAILS_GATEWAY : string :=
  "The AI's response was blocked by your organization's AI Gateway security policy. The model attempted to generate content that violates safety guidelines. Please rephrase your question or try a different topic.".
Definition RESPONSE_DETAILS_DIRECT : string :=
  "The AI's response was blocked due to security policy.".

Definition promptBlockedResponse : Response :=
  {| status := 400;
     headers := json_headers;
     body := JObj
       [("error", JStr "Prompt Blocked by Security Policy");
        ("errorType", JStr "prompt_blocked");
        ("details",
         if truthy (JStr AI_GATEWAY_ID)
         then JStr PROMPT_DETAILS_GATEWAY
         else JStr PROMPT_DETAILS_DIRECT);
        ("usingGateway", JBool (negb (negb (truthy (JStr AI_GATEWAY_ID)))))] |}.

Definition responseBlockedResponse : Response :=
  {| status := 400;
     headers := json_headers;
     body := JObj
       [("error", JStr "Response Blocked by Security Policy");
        ("errorType", JStr "response_blocked");
        ("details",
         if truthy (JStr AI_GATEWAY_ID)
         then JStr RESPONSE_DETAILS_GATEWAY
         else JStr RESPONSE_DETAILS_DIRECT);
        ("usingGateway", JBool (negb (negb (truthy (JStr AI_GATEWAY_ID)))))] |}.

Definition genericErrorResponse : Response :=
  {| status := 500;
     headers := [("content-type", "application/json")];
     body := JObj [("error", JStr "Failed to process request")] |}.

Section Handler.

(** [JSON.parse]: the parsed value, or the [SyntaxError] it throws *)
Variable JSON_parse : string -> Result JsVal.

(** Lines 275-289: the value of [gatewayError] after the inner [try] *)
Definition findGatewayError (errorObj : JsVal) : Result JsVal :=
  let gatewayError := JNull in
  let* has_message :=
    let* message := get_prop errorObj "message" in
    if truthy message then
      let* message := get_prop errorObj "message" in
      Ok (String.eqb (typeof message) "string")
    else Ok false in
  if has_message then
    try_catch
      (let* message := get_prop errorObj "message" in
       let* jsonMatch :=
         match message with
         | JStr s => Ok (match_braces s)
         | _ => Throw (TypeError "errorObj.message.match is not a function")
         end in
       match jsonMatch with
       | Some json =>
           let* parsed := JSON_parse json in
           let* has_errors :=
             let* error := get_prop parsed "error" in
             if truthy error then
               let* error := get_prop parsed "error" in
               Ok (Array_isArray error)
             else Ok false in
           if has_errors then
             let* error := get_prop parsed "error" in
             get_index error 0
           else Ok gatewayError
       | None => Ok gatewayError
       end)
      (fun parseErr => Ok gatewayError)
  else Ok gatewayError.

(** [gatewayError && gatewayError.code === code] *)
Definition hasCode (gatewayError : JsVal) (code : Z) : Result bool :=
  if truthy gatewayError then
    let* c := get_prop gatewayError "code" in
    Ok (strict_eq c (JNum code))
  else Ok false.

Definition catchBlock (error : JsVal) : Result Response :=
  let* returned :=
    if truthy error && String.eqb (typeof error) "object" then
      let errorObj := error in
      let* gatewayError := findGatewayError errorObj in
      let* prompt := hasCode gatewayError 2016 in
      if prompt then Ok (Some promptBlockedResponse)
      else
        let* response := hasCode gatewayError 2017 in
        if response then Ok (Some responseBlockedResponse)
        else Ok None
    else Ok None in
  match returned with
  | Some r => Ok r
  | None => Ok genericErrorResponse
  end.

End Handler.

(** ** [handleChatRequest] *)

Section Worker.

Variable NumberToString : Z -> string.
Variable JSON_parse : string -> Result JsVal.

(** [env.AI.run(model, aiOptions, runOptions)], awaited: the inference
    result, or what the call throws. *)
Variable AI_run : string -> JsVal -> JsVal -> Result JsVal.

(** [new Set(array)], as far as [has] can tell on a string *)
Definition new_Set (array : JsVal) : gset string :=
  list_to_set
    (omap (fun v => match v with JStr s => Some s | _ => None end)
          (elements array)).

(** [Array.isArray(raw?.field) ? raw.field : []] *)
Definition arrayField (raw : JsVal) (field : string) : Result JsVal :=
  let* v := get_prop_opt raw field in
  if Array_isArray v then get_prop raw field else Ok (JArr []).

Definition runOptions : JsVal :=
  if truthy (JStr AI_GATEWAY_ID) then
    JObj [("gateway",
           JObj [("id", JStr AI_GATEWAY_ID);
                 ("skipCache", JBool false);
                 ("cacheTtl", JNum 3600)])]
  else JObj [].

(** The [try] block; [request_json] is the outcome of [request.json()]. *)
Definition tryBlock (request_json : Result JsVal) : Result Response :=
  let* raw := request_json in
  let* messages := arrayField raw "messages" in
  let* blocked := arrayField raw "blockedUserContents" in
  let* model_input :=
    buildModelInput NumberToString (elements messages) (new_Set blocked) in
  let aiOptions := JObj [("input", input model_input)] in
  let* aiResponse := AI_run MODEL_ID aiOptions runOptions in
  let* responseText := extractResponseText aiResponse in
  Ok {| status := 200;
        headers := json_headers;
        body := JObj [("response", responseText); ("success", JBool true)] |}.

Definition handleChatRequest (request_json : Result JsVal) : Result Response :=
  try_catch (tryBlock request_json) (catchBlock JSON_parse).

End Worker.

(** ** [parseGatewayError] *)

(** Lines 142-145 and 146-149, for the field [k]: the object the function
    returns from this block, if it returns here.
    [const arr = Array.isArray(b.k) ? b.k : undefined;
     if (arr && arr.length && typeof arr[0] === "object")
       return { code: arr[0].code, message: arr[0].message };] *)
Definition errorEntry (b : JsVal) (k : string) : Result (option JsVal) :=
  let* arr :=
    let* v := get_prop b k in
    if Array_isArray v then get_prop b k else Ok JUndefined in
  let* usable :=
    if truthy arr then
      let* len := get_prop arr "length" in
      if truthy len then
        let* first := get_index arr 0 in
        Ok (String.eqb (typeof first) "object")
      else Ok false
    else Ok false in
  if usable then
    let* first := get_index arr 0 in
    let* code := get_prop first "code" in
    let* first := get_index arr 0 in
    let* message := get_prop first "message" in
    Ok (Some (JObj [("code", code); ("message", message)]))
  else Ok None.

(** Lines 152-154, for the field [k]:
    [if (typeof b.k === "string") return { message: b.k };] *)
Definition stringEntry (b : JsVal) (k : string) : Result (option JsVal) :=
  let* v := get_prop b k in
  if String.eqb (typeof v) "string" then
    let* v := get_prop b k in
    Ok (Some (JObj [("message", v)]))
  else Ok None.

(** The statements of a block in sequence: the first that returns wins. *)
Fixpoint first_return (blocks : list (Result (option JsVal)))
  : Result (option JsVal) :=
  match blocks with
  | [] => Ok None
  | block :: rest =>
      let* returned := block in
      match returned with
      | Some r => Ok (Some r)
      | None => first_return rest
      end
  end.

Definition parseGatewayError (body : JsVal) : Result JsVal :=
  let* returned :=
    try_catch
      (if truthy body && String.eqb (typeof body) "object" then
         let b := body in
         first_return
           [ errorEntry b "error";
             errorEntry b "errors";
             stringEntry b "error";
             stringEntry b "message";
             stringEntry b "detail" ]
       else Ok None)
      (fun _ => Ok None) in
  match returned with
  | Some r => Ok r
  | None => Ok (JObj [])
  end.

(** ** [fetch] *)

(** A request, as [fetch] reads it: the path of [new URL(request.url)],
    the method, and the outcome of [request.json()]. *)
Record Request : Type :=
  { pathname : string; method : string; json : Result JsVal }.

(** What [fetch] answers with: what [env.ASSETS.fetch] resolved to, a
    [new Response(text, { status })], or the response of the chat
    handler. *)
Inductive FetchResponse (Asset : Type) : Type :=
| FromAssets (asset : Asset)
| PlainResponse (text : string) (code : Z)
| ChatResponse (r : Response).
Arguments FromAssets {Asset} asset.
Arguments PlainResponse {Asset} text code.
Arguments ChatResponse {Asset} r.

Section Fetch.

Variable NumberToString : Z -> string.
Variable JSON_parse : string -> Result JsVal.
Variable AI_run : string -> JsVal -> JsVal -> Result JsVal.

(** [env.ASSETS.fetch(request)]: the asset response, or what it throws *)
Variable Asset : Type.
Variable ASSETS_fetch : Request -> Result Asset.

Definition fetch (request : Request) : Result (FetchResponse Asset) :=
  if String.eqb (pathname request) "/"
     || negb (String.prefix "/api/" (pathname request))
  then
    let* asset := ASSETS_fetch request in
    Ok (FromAssets asset)
  else if String.eqb (pathname request) "/api/chat" then
    if negb (String.eqb (method request) "POST")
    then Ok (PlainResponse "Method not allowed" 405)
    else
      let* r := handleChatRequest NumberToString JSON_parse AI_run (json request) in
      Ok (ChatResponse r)
  else Ok (PlainResponse "Not found" 404).

End Fetch.

(** ** Instances of the engine's functions, to run the model

    [decimal] prints a number in decimal digits, which is what the engine
    prints for the small integers of the examples. [parse_json] reads the
    JSON texts whose numbers are integers without exponent and whose
    strings use the short escapes only; it rejects every other text. *)

Definition decimal (n : Z) : string := pretty n.

Definition SyntaxError : JsVal :=
  JObj [("name", JStr "SyntaxError"); ("message", JStr "Unexpected token in JSON")].

Definition dquote : ascii := "034"%char.

Definition is_ws (c : ascii) : bool :=
  Ascii.eqb c " " || Ascii.eqb c "009" || Ascii.eqb c "010" || Ascii.eqb c "013".

Fixpoint skip_ws (s : string) : string :=
  match s with
  | String c rest => if is_ws c then skip_ws rest else s
  | EmptyString => s
  end.

Definition digit_of (c : ascii) : option Z :=
  let n := nat_of_ascii c in
  if ((48 <=? n) && (n <=? 57))%nat then Some (Z.of_nat (n - 48)) else None.

Fixpoint read_digits (s : string) (acc : Z) : Z * string :=
  match s with
  | String c rest =>
      match digit_of c with
      | Some d => read_digits rest (10 * acc + d)
      | None => (acc, s)
      end
  | EmptyString => (acc, s)
  end.

Definition read_nat (s : string) : option (Z * string) :=
  match s with
  | String c _ =>
      match digit_of c with
      | Some _ => Some (read_digits s 0)
      | None => None
      end
  | EmptyString => None
  end.

(** The characters of a string literal after its opening quote *)
Fixpoint read_string (s : string) : option (string * string) :=
  match s with
  | EmptyString => None
  | String c rest =>
      if Ascii.eqb c dquote then Some (EmptyString, rest)
      else if Ascii.eqb c "\" then
        match rest with
        | String e rest' =>
            let unescaped :=
              if Ascii.eqb e "n" then Some "010"%char
              else if Ascii.eqb e "t" then Some "009"%char
              else if Ascii.eqb e "r" then Some "013"%char
              else if Ascii.eqb e dquote || Ascii.eqb e "\" || Ascii.eqb e "/"
              then Some e
              else None in
            match unescaped, read_string rest' with
            | Some u, Some (body, after) => Some (String u body, after)
            | _, _ => None
            end
        | EmptyString => None
        end
      else if (nat_of_ascii c <? 32)%nat then None
      else
        match read_string rest with
        | Some (body, after) => Some (String c body, after)
        | None => None
        end
  end.

(** A later binding of a key replaces the earlier one. *)
Fixpoint set_field (fields : list (string * JsVal)) (k : string) (v : JsVal)
  : list (string * JsVal) :=
  match fields with
  | [] => [(k, v)]
  | (k', v') :: rest =>
      if String.eqb k' k then (k', v) :: rest else (k', v') :: set_field rest k v
  end.

Definition skip_prefix (p s : string) : option string :=
  if String.prefix p s
  then Some (String.substring (String.length p) (String.length s - String.length p) s)
  else None.

Fixpoint read_value (fuel : nat) (s : string) : option (JsVal * string) :=
  match fuel with
  | O => None
  | S fuel =>
      match skip_ws s with
      | EmptyString => None
      | String c rest =>
          if Ascii.eqb c "{" then
            match skip_ws rest with
            | String c' rest' =>
                if Ascii.eqb c' "}" then Some (JObj [], rest')
                else read_members fuel (skip_ws rest) []
            | EmptyString => None
            end
          else if Ascii.eqb c "[" then
            match skip_ws rest with
            | String c' rest' =>
                if Ascii.eqb c' "]" then Some (JArr [], rest')
                else read_elements fuel (skip_ws rest) []
            | EmptyString => None
            end
          else if Ascii.eqb c dquote then
            match read_string rest with
            | Some (str, after) => Some (JStr str, after)
            | None => None
            end
          else if Ascii.eqb c "-" then
            match read_nat rest with
            | Some (n, after) => Some (JNum (- n), after)
            | None => None
            end
          else
            match read_nat (String c rest) with
            | Some (n, after) => Some (JNum n, after)
            | None =>
                match skip_prefix "true" (String c rest) with
                | Some after => Some (JBool true, after)
                | None =>
                    match skip_prefix "false" (String c rest) with
                    | Some after => Some (JBool false, after)
                    | None =>
                        match skip_prefix "null" (String c rest) with
                        | Some after => Some (JNull, after)
                        | None => None
                        end
                    end
                end
            end
      end
  end
with read_elements (fuel : nat) (s : string) (acc : list JsVal)
  : option (JsVal * string) :=
  match fuel with
  | O => None
  | S fuel =>
      match read_value fuel s with
      | Some (v, after) =>
          match skip_ws after with
          | String c rest =>
              if Ascii.eqb c "," then read_elements fuel rest (acc ++ [v])
              else if Ascii.eqb c "]" then Some (JArr (acc ++ [v]), rest)
              else None
          | EmptyString => None
          end
      | None => None
      end
  end
with read_members (fuel : nat) (s : string) (acc : list (string * JsVal))
  : option (JsVal * string) :=
  match fuel with
  | O => None
  | S fuel =>
      match skip_ws s with
      | String q rest =>
          if Ascii.eqb q dquote then
            match read_string rest with
            | Some (k, after) =>
                match skip_ws after with
                | String colon after' =>
                    if Ascii.eqb colon ":" then
                      match read_value fuel after' with
                      | Some (v, after'') =>
                          match skip_ws after'' with
                          | String c rest' =>
                              if Ascii.eqb c ","
                              then read_members fuel rest' (set_field acc k v)
                              else if Ascii.eqb c "}"
                              then Some (JObj (set_field acc k v), rest')
                              else None
                          | EmptyString => None
                          end
                      | None => None
                      end
                    else None
                | EmptyString => None
                end
            | None => None
            end
          else None
      | EmptyString => None
      end
  end.

Definition parse_json (text : string) : Result JsVal :=
  match read_value (S (String.length text)) text with
  | Some (v, after) =>
      match skip_ws after with
      | EmptyString => Ok v
      | String _ _ => Throw SyntaxError
      end
  | None => Throw SyntaxError
  end.

(** Writes a text with ['] for the double quote. *)
Fixpoint dq (s : string) : string :=
  match s with
  | EmptyString => EmptyString
  | String c rest => String (if Ascii.eqb c "'" then dquote else c) (dq rest)
  end.

Definition msg (role content : string) : JsVal :=
  JObj [("role", JStr role); ("content", JStr content)].

Definition error_with (message : string) : JsVal :=
  JObj [("message", JStr message)].

(** ** The vocabulary of the specification

    Total readings of a message, independent of the accessors above: a
    value that is not an object has no field. *)

Definition nullish (v : JsVal) : bool :=
  match v with JUndefined | JNull => true | _ => false end.

Definition field (v : JsVal) (k : string) : JsVal :=
  match v with
  | JObj fields => default JUndefined (own_property fields k)
  | _ => JUndefined
  end.

Definition has_role (m : JsVal) (r : string) : bool :=
  match field m "role" with
  | JStr r' => String.eqb r' r
  | _ => false
  end.

Definition text_content (m : JsVal) : option string :=
  match field m "content" with
  | JStr c => Some c
  | _ => None
  end.

(** A user message whose content is in the block set *)
Definition blocked_user (blocked : gset string) (m : JsVal) : bool :=
  has_role m "user" &&
  match text_content m with
  | Some c => bool_decide (c ∈ blocked)
  | None => false
  end.

(** What the filter rules 1 and 2 exclude *)
Definition excluded (blocked : gset string) (m : JsVal) : bool :=
  has_role m "system" || blocked_user blocked m.

Fixpoint fold_case (s : string) : string :=
  match s with
  | EmptyString => EmptyString
  | String c rest => String (Canonicalize c) (fold_case rest)
  end.

(** [s] contains [pat], letter case ignored *)
Definition contains_ignoring_case (pat s : string) : Prop :=
  exists pre mid post,
    s = pre +:+ mid +:+ post /\ fold_case mid = fold_case pat.

(** A guardrail notice: an assistant message that mentions the block *)
Definition guardrail_notice (m : JsVal) : Prop :=
  has_role m "assistant" = true /\
  exists c, text_content m = Some c /\
            contains_ignoring_case "blocked by guardrails" c.

(** [guardrail_notice], decided *)
Definition is_notice (m : JsVal) : bool :=
  has_role m "assistant" &&
  match text_content m with
  | Some c => search_ci "blocked by guardrails" c
  | None => false
  end.

(** Every entry can be read: none is [null] or [undefined] *)
Definition readable (l : list JsVal) : Prop :=
  Forall (fun m => nullish m = false) l.

(** An entry that the pass appends and leaves for the window *)
Definition kept (blocked : gset string) (m : JsVal) : Prop :=
  nullish m = false /\ excluded blocked m = false /\ is_notice m = false.

(** The pairing rule: drop the last cleaned entry iff it is a user turn *)
Definition pop_if_user (cleaned : list JsVal) : list JsVal :=
  match last cleaned with
  | Some prev => if has_role prev "user" then removelast cleaned else cleaned
  | None => cleaned
  end.

Section Transcript.

Variable NumberToString : Z -> string.

(** The line of the transcript for one entry: "User: <content>" or
    "Assistant: <content>"; an entry of another role has no line. *)
Definition transcript_line (m : JsVal) : Result (option string) :=
  if has_role m "user" then
    let* text := ToString NumberToString (field m "content") in
    Ok (Some ("User: " +:+ text))
  else if has_role m "assistant" then
    let* text := ToString NumberToString (field m "content") in
    Ok (Some ("Assistant: " +:+ text))
  else Ok None.

(** The lines of all entries, in order, joined with a blank line *)
Definition transcript (windowed : list JsVal) : Result string :=
  let* lines := Array_map transcript_line windowed in
  Ok (String.concat (nl +:+ nl) (omap id lines)).

(** An entry the formatting can render: it is an object or a primitive
    other than [null] and [undefined], and its content converts to a
    string. *)
Definition renderable (m : JsVal) : Prop :=
  nullish m = false /\
  exists text, ToString NumberToString (field m "content") = Ok text.

End Transcript.

(** *** Response extraction *)

(** A string or an object (arrays included): what extraction looks into *)
Definition is_object (v : JsVal) : bool :=
  match v with JArr _ | JObj _ => true | _ => false end.

(** [item]'s [type] field equals [ty] *)
Definition typed (ty : string) (item : JsVal) : bool :=
  match field item "type" with
  | JStr t => String.eqb t ty
  | _ => false
  end.

(** The element at index 0: of an array, of an object that has a property
    named 0, of a string *)
Definition first_of (v : JsVal) : JsVal :=
  match v with
  | JArr (x :: _) => x
  | JObj fields => default JUndefined (own_property fields "0")
  | JStr (String c _) => JStr (String c EmptyString)
  | _ => JUndefined
  end.

(** Resolution step 2: the text of the first [output_text] part of the
    first [message] element of [output], when it is not empty *)
Definition structured_answer (result : JsVal) : option JsVal :=
  match field result "output" with
  | JArr items =>
      match List.find (typed "message") items with
      | Some message =>
          match field message "content" with
          | JArr parts =>
              match List.find (typed "output_text") parts with
              | Some part =>
                  if truthy (field part "text") then Some (field part "text")
                  else None
              | None => None
              end
          | _ => None
          end
      | None => None
      end
  | _ => None
  end.

(** Resolution step 3, in its order: [result.response], [result.content],
    [result.choices[0].message.content], [result.result.response] *)
Definition fallback_candidates (result : JsVal) : list JsVal :=
  [ field result "response";
    field result "content";
    field (field (first_of (field result "choices")) "message") "content";
    field (field result "result") "response" ].

(** The resolution order of the specification, first match wins *)
Definition resolve (result : JsVal) : JsVal :=
  match result with
  | JStr s => JStr s
  | _ =>
      match structured_answer result with
      | Some text => text
      | None =>
          default (JStr PARSE_FAILURE)
                  (List.find truthy (fallback_candidates result))
      end
  end.

(** The elements that the two searches look at have a [type] to read:
    none is [null] or [undefined]. *)
Definition typed_items (result : JsVal) : Prop :=
  readable (elements (field result "output")) /\
  forall message,
    List.find (typed "message") (elements (field result "output")) = Some message ->
    readable (elements (field message "content")).

(** *** Error classification *)

Section Classification.

Variable JSON_parse : string -> Result JsVal.

(** The message of [error] is a string in which the pattern finds a
    brace-delimited text; that text parses to an object whose [error]
    field is an array with a first element whose [code] is [code]. *)
Definition embedded_code (error : JsVal) (code : Z) : Prop :=
  exists message json parsed first rest,
    field error "message" = JStr message /\
    match_braces message = Some json /\
    JSON_parse json = Ok parsed /\
    field parsed "error" = JArr (first :: rest) /\
    field first "code" = JNum code.

(** [gatewayError] as the classification reads it *)
Definition gateway_error (error : JsVal) : JsVal :=
  match field error "message" with
  | JStr message =>
      match match_braces message with
      | Some json =>
          match JSON_parse json with
          | Ok parsed =>
              match field parsed "error" with
              | JArr errors => default JUndefined (head errors)
              | _ => JNull
              end
          | Throw _ => JNull
          end
      | None => JNull
      end
  | _ => JNull
  end.

End Classification.

Definition errorType (r : Response) : JsVal := field (body r) "errorType".
Definition details (r : Response) : JsVal := field (body r) "details".
Definition usingGateway (r : Response) : JsVal := field (body r) "usingGateway".

(** The last [n] entries of [l], oldest first *)
Definition last_n {A} (n : nat) (l : list A) : list A :=
  rev (take n (rev l)).

(** *** Vocabulary of the further properties *)

(** [Array.isArray(v) ? v : []] *)
Definition array_or_empty (v : JsVal) : JsVal :=
  if Array_isArray v then v else JArr [].

(** The body as the handler reads it: the two fields, an empty array in
    the place of a field that is not an array, nothing else. *)
Definition normalized_body (raw : JsVal) : JsVal :=
  JObj [("messages", array_or_empty (field raw "messages"));
        ("blockedUserContents", array_or_empty (field raw "blockedUserContents"))].

(** The response of a request that went through *)
Definition successResponse (text : JsVal) : Response :=
  {| status := 200;
     headers := json_headers;
     body := JObj [("response", text); ("success", JBool true)] |}.

(** [c] occurs in [s] *)
Definition occurs (c : ascii) (s : string) : Prop :=
  exists before after, s = before +:+ String c after.

(** [s] up to its first line terminator *)
Fixpoint first_line (s : string) : string :=
  match s with
  | EmptyString => EmptyString
  | String c rest =>
      if is_line_terminator c then EmptyString else String c (first_line rest)
  end.

(** The first element of an error list, when [typeof] calls it an object *)
Definition usable_head (v : JsVal) : option JsVal :=
  match v with
  | JArr (first :: _) =>
      if String.eqb (typeof first) "object" then Some first else None
  | _ => None
  end.

(** A user message that the pass keeps *)
Definition kept_user (blocked : gset string) (m : JsVal) : Prop :=
  kept blocked m /\ has_role m "user" = true.

(** *** The transcript, entry by entry *)

Section TranscriptEntries.

Variable NumberToString : Z -> string.

(** What one entry contributes to the transcript: a user entry the line
    "User: <content>", an assistant entry the line "Assistant: <content>",
    with the content as a template literal prints it; an entry of another
    role no line. *)
Inductive transcript_entry : JsVal -> option string -> Prop :=
| entry_user (m : JsVal) (text : string) :
    has_role m "user" = true ->
    ToString NumberToString (field m "content") = Ok text ->
    transcript_entry m (Some ("User: " +:+ text))
| entry_assistant (m : JsVal) (text : string) :
    has_role m "assistant" = true ->
    ToString NumberToString (field m "content") = Ok text ->
    transcript_entry m (Some ("Assistant: " +:+ text))
| entry_other (m : JsVal) :
    has_role m "user" = false -> has_role m "assistant" = false ->
    transcript_entry m None.

End TranscriptEntries.

(** The lines that are there, in order *)
Fixpoint written (lines : list (option string)) : list string :=
  match lines with
  | [] => []
  | Some line :: rest => line :: written rest
  | None :: rest => written rest
  end.

(** Lines joined with a blank line between them *)
Fixpoint join_blank (lines : list string) : string :=
  match lines with
  | [] => EmptyString
  | [line] => line
  | line :: rest => line +:+ (nl +:+ nl) +:+ join_blank rest
  end.

(** *** The text the pattern locates *)

(** [json] is what the pattern finds in [message]: a part of the message
    from an opening to a closing brace, on one line, with no closing brace
    after it on that line (the match is greedy) and no opening brace
    before it that has a closing brace on its line (the match is the
    leftmost). *)
Definition found_by_pattern (message json : string) : Prop :=
  exists pre body post,
    message = pre +:+ json +:+ post /\
    json = "{" +:+ body +:+ "}" /\
    first_line body = body /\
    ~ occurs "}" (first_line post) /\
    (forall before after,
       pre = before +:+ String "{" after ->
       ~ occurs "}" (first_line (after +:+ json +:+ post))).

Section Reported.

Variable JSON_parse : string -> Result JsVal.

(** The error reports [code]: its message is a string, the text the
    pattern locates in it parses, and the parsed value is an object whose
    [error] field is an array whose first element has the code. *)
Definition reported_code (error : JsVal) (code : Z) : Prop :=
  exists message json parsed first rest,
    field error "message" = JStr message /\
    found_by_pattern message json /\
    JSON_parse json = Ok parsed /\
    field parsed "error" = JArr (first :: rest) /\
    field first "code" = JNum code.

(** [response] is the answer that the error calls for *)
Definition classified (error : JsVal) (response : Response) : Prop :=
  ((status response = 400 /\ errorType response = JStr "prompt_blocked")
     <-> reported_code error 2016) /\
  ((status response = 400 /\ errorType response = JStr "response_blocked")
     <-> reported_code error 2017) /\
  ((status response = 500 /\
    body response = JObj [("error", JStr "Failed to process request")])
     <-> (~ reported_code error 2016 /\ ~ reported_code error 2017)).

End Reported.

(** ** Inputs of the examples *)

(** [n] plain turns, user and assistant in alternation *)
Definition alternating (n : nat) : list JsVal :=
  List.map (fun i => msg (if Nat.even i then "user" else "assistant") (pretty i))
           (seq 0 n).

(** A structured result next to a legacy field *)
Definition structured_result : JsVal :=
  JObj [("output",
         JArr [JObj [("type", JStr "reasoning")];
               JObj [("type", JStr "message");
                     ("content",
                      JArr [JObj [("type", JStr "output_text");
                                  ("text", JStr "answer")]])]]);
        ("response", JStr "legacy")].

(** Errors as the gateway reports a policy block *)
Definition blocked_prompt_error : JsVal :=
  error_with (dq "InferenceUpstreamError: {'error':[{'code':2016,'message':'x'}]}").

Definition blocked_response_error : JsVal :=
  error_with (dq "InferenceUpstreamError: {'error':[{'code':2017,'message':'x'}]}").

(** A message the guardrails answered, and one of an unknown role *)
Definition notice_message : JsVal :=
  msg "assistant" "Sorry, this was BLOCKED by Guardrails.".

Definition tool_message : JsVal := msg "tool" "42 rows".

(** An inference call that fails with [error] *)
Definition failing_run (error : JsVal) : string -> JsVal -> JsVal -> Result JsVal :=
  fun _ _ _ => Throw error.

(** A request body with one question, and inference functions that
    answer with a structured result, with [null], with the options they
    were given *)
Definition chat_body : JsVal := JObj [("messages", JArr [msg "user" "hi"])].

Definition structured_run : string -> JsVal -> JsVal -> Result JsVal :=
  fun _ _ _ => Ok structured_result.

Definition null_run : string -> JsVal -> JsVal -> Result JsVal :=
  fun _ _ _ => Ok JNull.

Definition echo_run : string -> JsVal -> JsVal -> Result JsVal :=
  fun _ options _ => Ok options.

(** An error message with its JSON text printed over several lines *)
Definition multiline_message : string :=
  dq "upstream said {" +:+ nl +:+ dq "'error':[{" +:+ nl +:+
  dq "'code':2016" +:+ nl +:+ "}]}".

(** A body for [parseGatewayError], as the gateway reports a block *)
Definition gateway_body : JsVal :=
  JObj [("error", JArr [JObj [("code", JNum 2016); ("message", JStr "x")]]);
        ("message", JStr "outer")].

(** Requests to [fetch], and assets that answer with nothing *)
Definition chat_post : Request :=
  {| pathname := "/api/chat"; method := "POST"; json := Ok chat_body |}.

Definition no_assets : Request -> Result unit := fun _ => Ok tt.

(** A conversation of two turns and an entry of an unknown role *)
Definition two_turns_and_tool : list JsVal :=
  [msg "user" "Hi"; msg "assistant" "Hello!"; tool_message].

(** An error message whose JSON text is followed by one more brace *)
Definition trailing_brace_message : string :=
  dq "{'error':[{'code':2016,'message':'x'}]} (see })".

(** * Proofs *)

(** ** Reading fields *)

Lemma bind_ok {A B} (m : Result A) (k : A -> Result B) (b : B) :
  bind m k = Ok b -> exists a, m = Ok a /\ k a = Ok b.
Proof. destruct m as [a|e]; simpl; [eauto | discriminate]. Qed.

Lemma get_prop_field (v : JsVal) (k : string) :
  nullish v = false -> String.eqb k "length" = false ->
  get_prop v k = Ok (field v k).
Proof. intros Hv Hk. destruct v; simpl in *; rewrite ?Hk; congruence. Qed.

Lemma get_prop_nullish (v : JsVal) (k : string) :
  nullish v = true -> exists e, get_prop v k = Throw e.
Proof. destruct v; simpl; try discriminate; eauto. Qed.

Lemma strict_eq_role (m : JsVal) (r : string) :
  strict_eq (field m "role") (JStr r) = has_role m r.
Proof. unfold has_role. destruct (field m "role"); reflexivity. Qed.

(** ** The pattern search *)

Lemma append_nil (s : string) : EmptyString +:+ s = s.
Proof. reflexivity. Qed.

Lemma append_cons (c : ascii) (s t : string) :
  String c s +:+ t = String c (s +:+ t).
Proof. reflexivity. Qed.

Lemma prefix_ci_spec (pat s : string) :
  prefix_ci pat s = true <->
  exists mid post, s = mid +:+ post /\ fold_case mid = fold_case pat.
Proof.
  revert s. induction pat as [|a pat IH]; intros s; simpl.
  - split; [intros _; exists EmptyString, s; done|done].
  - destruct s as [|b s]; simpl.
    + split; [done|]. intros (mid & post & Hs & Hf).
      destruct mid; [discriminate Hf | rewrite append_cons in Hs; discriminate Hs].
    + rewrite andb_true_iff, IH. split.
      * intros [Hc (mid & post & -> & Hf)].
        exists (String b mid), post. rewrite append_cons. split; [done|].
        apply Ascii.eqb_eq in Hc. simpl. by rewrite Hf, Hc.
      * intros (mid & post & Hs & Hf).
        destruct mid as [|c mid]; [discriminate Hf|].
        rewrite append_cons in Hs. injection Hs as -> ->.
        simpl in Hf. injection Hf as Hc Hf. split.
        -- apply Ascii.eqb_eq. done.
        -- eauto.
Qed.

Lemma search_ci_spec (pat s : string) :
  search_ci pat s = true <-> contains_ignoring_case pat s.
Proof.
  unfold contains_ignoring_case.
  induction s as [|b s IH].
  - simpl. rewrite orb_false_r, prefix_ci_spec. split.
    + intros (mid & post & Hs & Hf). exists EmptyString, mid, post. done.
    + intros (pre & mid & post & Hs & Hf).
      destruct pre; [by exists mid, post | rewrite append_cons in Hs; discriminate Hs].
  - change (search_ci pat (String b s))
      with (prefix_ci pat (String b s) || search_ci pat s).
    rewrite orb_true_iff, IH, prefix_ci_spec. split.
    + intros [(mid & post & Hs & Hf) | (pre & mid & post & Hs & Hf)].
      * exists EmptyString, mid, post. done.
      * exists (String b pre), mid, post. rewrite append_cons. by rewrite Hs.
    + intros (pre & mid & post & Hs & Hf). destruct pre as [|c pre].
      * left. by exists mid, post.
      * right. rewrite append_cons in Hs. injection Hs as -> Hs. eauto.
Qed.

Lemma is_notice_spec (m : JsVal) :
  is_notice m = true <-> guardrail_notice m.
Proof.
  unfold is_notice, guardrail_notice. rewrite andb_true_iff.
  destruct (text_content m) as [c|].
  - rewrite search_ci_spec. split.
    + intros [? ?]. eauto.
    + intros [? (c' & [= <-] & ?)]. done.
  - split; [intros [_ ?]; done | intros [_ (c & ? & _)]; done].
Qed.

Section SanitizerProofs.

Variable NumberToString : Z -> string.
Variable blocked : gset string.

Local Abbreviation step := (clean_step NumberToString blocked).
Local Abbreviation loop := (clean_loop NumberToString blocked).

Lemma isBlockedUserContent_spec (m : JsVal) :
  nullish m = false ->
  isBlockedUserContent blocked m = Ok (blocked_user blocked m).
Proof.
  intros Hm. unfold isBlockedUserContent, blocked_user, text_content.
  rewrite !get_prop_field by done. simpl. rewrite strict_eq_role.
  destruct (has_role m "user"); [|done].
  destruct (field m "content"); reflexivity.
Qed.

Lemma looksLikeGuardrailNotice_spec (m : JsVal) :
  nullish m = false ->
  looksLikeGuardrailNotice NumberToString m = Ok (is_notice m).
Proof.
  intros Hm. unfold looksLikeGuardrailNotice, is_notice, text_content.
  rewrite !get_prop_field by done. simpl. rewrite strict_eq_role.
  destruct (has_role m "assistant"); [|done].
  destruct (field m "content"); reflexivity.
Qed.

Lemma array_at_last (cleaned : list JsVal) :
  array_at cleaned (length cleaned - 1) = default JUndefined (last cleaned).
Proof.
  unfold array_at. rewrite last_lookup. do 2 f_equal. lia.
Qed.

Lemma last_readable (cleaned : list JsVal) (prev : JsVal) :
  readable cleaned -> last cleaned = Some prev -> nullish prev = false.
Proof.
  intros Hall Hlast. rewrite last_lookup in Hlast.
  by eapply (Forall_lookup_1 _ _ _ _ Hall Hlast).
Qed.

Lemma lastIsUser_spec (cleaned : list JsVal) :
  readable cleaned ->
  (if lastIsUser cleaned is Ok true then removelast cleaned else cleaned)
  = pop_if_user cleaned
  /\ exists b, lastIsUser cleaned = Ok b.
Proof.
  intros Hall. unfold lastIsUser, pop_if_user. rewrite array_at_last.
  destruct cleaned as [|x l] eqn:E; [simpl; eauto|]. rewrite <- E in *.
  replace (length cleaned =? 0)%nat with false
    by (symmetry; apply Nat.eqb_neq; subst; simpl; lia).
  simpl. destruct (last cleaned) as [prev|] eqn:Hlast.
  - simpl. rewrite get_prop_field by eauto using last_readable. simpl.
    rewrite strict_eq_role. destruct (has_role prev "user"); eauto.
  - apply last_None in Hlast. congruence.
Qed.

(** What one iteration does, in the vocabulary of the specification *)
Lemma clean_step_spec (cleaned : list JsVal) (m : JsVal) :
  nullish m = false -> readable cleaned ->
  step cleaned m =
    Ok (if excluded blocked m then cleaned
        else if is_notice m then pop_if_user cleaned
        else cleaned ++ [m]).
Proof.
  intros Hm Hall. unfold clean_step, excluded.
  rewrite get_prop_field by done. simpl. rewrite strict_eq_role.
  destruct (has_role m "system"); [done|]. simpl.
  rewrite isBlockedUserContent_spec by done. simpl.
  destruct (blocked_user blocked m); [done|].
  rewrite looksLikeGuardrailNotice_spec by done. simpl.
  destruct (is_notice m); [|done].
  destruct (lastIsUser_spec cleaned Hall) as [Hpop [b Hb]].
  rewrite Hb in *. simpl. rewrite <- Hpop. by destruct b.
Qed.

Lemma clean_step_nullish (cleaned : list JsVal) (m : JsVal) :
  nullish m = true -> exists e, step cleaned m = Throw e.
Proof.
  intros Hm. unfold clean_step.
  destruct (get_prop_nullish m "role" Hm) as [e ->]. simpl. eauto.
Qed.

Lemma readable_removelast (l : list JsVal) : readable l -> readable (removelast l).
Proof.
  unfold readable. induction 1 as [|x l Hx Hl IH]; simpl; [constructor|].
  destruct l; [constructor|]. constructor; done.
Qed.

Lemma readable_pop_if_user (l : list JsVal) : readable l -> readable (pop_if_user l).
Proof.
  intros Hl. unfold pop_if_user. destruct (last l); [|done].
  destruct (has_role _ _); auto using readable_removelast.
Qed.

Lemma clean_step_readable (cleaned cleaned' : list JsVal) (m : JsVal) :
  readable cleaned -> step cleaned m = Ok cleaned' -> readable cleaned'.
Proof.
  intros Hall Hstep. destruct (nullish m) eqn:Hm.
  - destruct (clean_step_nullish cleaned m Hm) as [e He]. congruence.
  - rewrite clean_step_spec in Hstep by done. injection Hstep as <-.
    destruct (excluded blocked m); [done|].
    destruct (is_notice m); [by apply readable_pop_if_user|].
    apply Forall_app. split; [done|]. by constructor.
Qed.

Lemma clean_step_excluded (cleaned : list JsVal) (m : JsVal) :
  excluded blocked m = true -> step cleaned m = Ok cleaned.
Proof.
  intros Hex. assert (Hm : nullish m = false).
  { unfold excluded, blocked_user, has_role in Hex. by destruct m. }
  unfold clean_step. rewrite get_prop_field by done. simpl.
  rewrite strict_eq_role. unfold excluded in Hex.
  destruct (has_role m "system"); [done|]. simpl in *.
  rewrite isBlockedUserContent_spec by done. simpl. by rewrite Hex.
Qed.

Lemma kept_readable (l : list JsVal) : Forall (kept blocked) l -> readable l.
Proof. intros H. eapply Forall_impl; [exact H|]. by intros m [? _]. Qed.

Lemma Forall_sublist (P : JsVal -> Prop) (l1 l2 : list JsVal) :
  l1 `sublist_of` l2 -> Forall P l2 -> Forall P l1.
Proof.
  intros Hsub. rewrite !Forall_forall. intros H x Hx.
  apply H. by apply (sublist_subseteq _ _ Hsub).
Qed.

Lemma sublist_removelast (l : list JsVal) : removelast l `sublist_of` l.
Proof.
  induction l as [|x l IH]; simpl; [done|].
  destruct l; [by apply sublist_nil_l | by apply sublist_skip].
Qed.

Lemma sublist_pop_if_user (l : list JsVal) : pop_if_user l `sublist_of` l.
Proof.
  unfold pop_if_user. destruct (last l); [|done].
  destruct (has_role _ _); [apply sublist_removelast | done].
Qed.

Lemma clean_step_kept (cleaned cleaned' : list JsVal) (m : JsVal) :
  Forall (kept blocked) cleaned -> step cleaned m = Ok cleaned' ->
  Forall (kept blocked) cleaned' /\ cleaned' `sublist_of` (cleaned ++ [m]).
Proof.
  intros Hall Hstep. destruct (nullish m) eqn:Hm.
  { destruct (clean_step_nullish cleaned m Hm) as [e He]. congruence. }
  rewrite clean_step_spec in Hstep by auto using kept_readable.
  injection Hstep as <-.
  destruct (excluded blocked m) eqn:Hex; [|destruct (is_notice m) eqn:Hn].
  - split; [done|]. by apply sublist_inserts_r.
  - split.
    + eapply Forall_sublist; [apply sublist_pop_if_user | done].
    + apply sublist_inserts_r, sublist_pop_if_user.
  - split; [|done]. apply Forall_app. split; [done|]. by repeat constructor.
Qed.

(** The loop keeps a subsequence of what it has read, made of [kept]
    entries only. *)
Lemma clean_loop_kept (raw cleaned cleaned' : list JsVal) :
  Forall (kept blocked) cleaned -> loop raw cleaned = Ok cleaned' ->
  Forall (kept blocked) cleaned' /\ cleaned' `sublist_of` (cleaned ++ raw).
Proof.
  revert cleaned. induction raw as [|m raw IH]; intros cleaned Hall Hloop; simpl in *.
  - injection Hloop as <-. by rewrite app_nil_r.
  - apply bind_ok in Hloop as (c1 & Hstep & Hloop).
    destruct (clean_step_kept _ _ _ Hall Hstep) as [Hall1 Hsub1].
    destruct (IH _ Hall1 Hloop) as [Hall' Hsub']. split; [done|].
    etrans; [exact Hsub'|].
    rewrite (cons_middle m cleaned raw), (assoc app).
    by apply sublist_app.
Qed.

Lemma clean_loop_app (raw1 raw2 cleaned : list JsVal) :
  loop (raw1 ++ raw2) cleaned =
  let* cleaned' := loop raw1 cleaned in loop raw2 cleaned'.
Proof.
  revert cleaned. induction raw1 as [|m raw1 IH]; intros cleaned; simpl; [done|].
  destruct (step cleaned m); simpl; [apply IH | done].
Qed.

(** Deleting the excluded messages from the history changes no state of
    the loop. *)
Lemma clean_loop_filter (raw cleaned : list JsVal) :
  loop (List.filter (fun m => negb (excluded blocked m)) raw) cleaned
  = loop raw cleaned.
Proof.
  revert cleaned. induction raw as [|m raw IH]; intros cleaned; simpl; [done|].
  destruct (excluded blocked m) eqn:Hex; simpl.
  - rewrite clean_step_excluded by done. simpl. apply IH.
  - destruct (step cleaned m); simpl; [apply IH | done].
Qed.

(** ** The window *)

Lemma window_last_n (cleaned : list JsVal) : window cleaned = last_n 16 cleaned.
Proof.
  unfold window, last_n. rewrite firstn_rev, rev_involutive.
  destruct (16 <? length cleaned)%nat eqn:Hlen; [done|].
  apply Nat.ltb_ge in Hlen.
  replace (length cleaned - 16)%nat with 0%nat by lia. done.
Qed.

Lemma window_length (cleaned : list JsVal) :
  length (window cleaned) = Nat.min 16 (length cleaned).
Proof.
  unfold window. destruct (16 <? length cleaned)%nat eqn:Hlen.
  - apply Nat.ltb_lt in Hlen. rewrite length_drop. lia.
  - apply Nat.ltb_ge in Hlen. lia.
Qed.

Lemma window_suffix (cleaned : list JsVal) :
  cleaned = take (length cleaned - 16) cleaned ++ window cleaned.
Proof.
  unfold window. destruct (16 <? length cleaned)%nat eqn:Hlen.
  - by rewrite take_drop.
  - apply Nat.ltb_ge in Hlen.
    replace (length cleaned - 16)%nat with 0%nat by lia. done.
Qed.

Lemma window_sublist (cleaned : list JsVal) : window cleaned `sublist_of` cleaned.
Proof.
  unfold window. destruct (16 <? length cleaned)%nat; [apply sublist_drop | done].
Qed.

Lemma buildModelInput_window (raw cleaned : list JsVal) :
  loop raw [] = Ok cleaned ->
  buildModelInput NumberToString raw blocked
  = formatInput NumberToString (window cleaned).
Proof. intros H. unfold buildModelInput. by rewrite H. Qed.

Lemma buildModelInput_ok (raw : list JsVal) (mi : ModelInput) :
  buildModelInput NumberToString raw blocked = Ok mi ->
  exists cleaned,
    loop raw [] = Ok cleaned /\ Forall (kept blocked) cleaned /\
    cleaned `sublist_of` raw /\
    formatInput NumberToString (window cleaned) = Ok mi.
Proof.
  intros H. apply bind_ok in H as (cleaned & Hloop & Hfmt).
  exists cleaned. destruct (clean_loop_kept raw [] cleaned) as [? ?]; done.
Qed.

Lemma notice_not_excluded (m : JsVal) :
  is_notice m = true -> excluded blocked m = false.
Proof.
  unfold is_notice, excluded, blocked_user, has_role.
  destruct (field m "role") as [| | | |r| |]; try done.
  intros [Hr _]%andb_true_iff. apply String.eqb_eq in Hr as ->. done.
Qed.

Lemma pop_if_user_changes (cleaned : list JsVal) :
  pop_if_user cleaned <> cleaned <->
  exists prev, last cleaned = Some prev /\ has_role prev "user" = true.
Proof.
  unfold pop_if_user. destruct (last cleaned) as [prev|] eqn:Hlast.
  - destruct (has_role prev "user") eqn:Hr.
    + split; [eauto|]. intros _ Heq.
      apply last_Some in Hlast as [l' ->]. rewrite removelast_last in Heq.
      apply (f_equal length) in Heq. rewrite length_app in Heq. simpl in Heq. lia.
    + split; [done|]. intros (p & [= <-] & ?). congruence.
  - split; [done|]. intros (p & ? & _). done.
Qed.

Lemma pop_if_user_at_most_one (cleaned : list JsVal) :
  exists popped, cleaned = pop_if_user cleaned ++ popped /\ (length popped <= 1)%nat.
Proof.
  unfold pop_if_user. destruct (last cleaned) as [prev|] eqn:Hlast.
  - destruct (has_role prev "user").
    + exists [prev]. split; [|simpl; lia].
      apply last_Some in Hlast as [l' ->]. by rewrite removelast_last.
    + exists []. rewrite app_nil_r. split; [done | simpl; lia].
  - exists []. rewrite app_nil_r. split; [done | simpl; lia].
Qed.

(** C1. For every history and block set, the input is formatted from
    messages of the history none of which has role "system" or is a user
    message with a blocked content, and deleting every such message from
    the history leaves the result of [buildModelInput] unchanged. *)
Theorem buildModelInput_excludes_system_and_blocked (raw : list JsVal) :
  buildModelInput NumberToString
    (List.filter (fun m => negb (excluded blocked m)) raw) blocked
  = buildModelInput NumberToString raw blocked
  /\
  forall mi, buildModelInput NumberToString raw blocked = Ok mi ->
    exists windowed,
      windowed `sublist_of` raw /\
      formatInput NumberToString windowed = Ok mi /\
      Forall (fun m => has_role m "system" = false /\
                       blocked_user blocked m = false) windowed.
Proof.
  split.
  - unfold buildModelInput. by rewrite clean_loop_filter.
  - intros mi (cleaned & _ & Hkept & Hsub & Hfmt)%buildModelInput_ok.
    exists (window cleaned). split; [|split; [done|]].
    + etrans; [apply window_sublist | done].
    + eapply Forall_sublist; [apply window_sublist|].
      eapply Forall_impl; [exact Hkept|].
      intros m (_ & Hex & _). by apply orb_false_iff in Hex.
Qed.

(** C2. A guardrail notice (an assistant message whose content contains
    "blocked by guardrails", letter case ignored) is never in the cleaned
    sequence; when the loop meets one after a prefix that left [cleaned],
    it goes on with [pop_if_user cleaned]: the last cleaned entry is
    removed if and only if its role is "user", at most one entry goes, and
    with no such entry (also with nothing cleaned yet) the state is
    unchanged and nothing is thrown. *)
Theorem guardrail_notice_drops_pair :
  (forall raw cleaned, loop raw [] = Ok cleaned ->
     Forall (fun m => ~ guardrail_notice m) cleaned)
  /\
  (forall raw m rest cleaned,
     guardrail_notice m -> loop raw [] = Ok cleaned ->
     loop (raw ++ [m]) [] = Ok (pop_if_user cleaned) /\
     loop (raw ++ m :: rest) [] = loop rest (pop_if_user cleaned))
  /\
  (forall cleaned,
     (pop_if_user cleaned = removelast cleaned /\
      exists prev, last cleaned = Some prev /\ has_role prev "user" = true)
     \/
     (pop_if_user cleaned = cleaned /\
      ~ exists prev, last cleaned = Some prev /\ has_role prev "user" = true))
  /\
  (forall cleaned, exists popped,
     cleaned = pop_if_user cleaned ++ popped /\ (length popped <= 1)%nat)
  /\
  (forall m, guardrail_notice m -> loop [m] [] = Ok []).
Proof.
  assert (Hstep : forall raw m cleaned,
    guardrail_notice m -> loop raw [] = Ok cleaned ->
    step cleaned m = Ok (pop_if_user cleaned)).
  { intros raw m cleaned Hn%is_notice_spec Hloop.
    destruct (clean_loop_kept raw [] cleaned) as [Hkept _]; [done..|].
    rewrite clean_step_spec.
    - by rewrite notice_not_excluded, Hn.
    - unfold is_notice, has_role in Hn. by destruct m.
    - by apply kept_readable. }
  split; [|split; [|split; [|split]]].
  - intros raw cleaned Hloop.
    destruct (clean_loop_kept raw [] cleaned) as [Hkept _]; [done..|].
    eapply Forall_impl; [exact Hkept|].
    intros m (_ & _ & Hn) Hnotice%is_notice_spec. congruence.
  - intros raw m rest cleaned Hn Hloop.
    rewrite !clean_loop_app, Hloop. simpl.
    by rewrite (Hstep raw m cleaned Hn Hloop).
  - intros cleaned. unfold pop_if_user.
    destruct (last cleaned) as [prev|] eqn:Hlast.
    + destruct (has_role prev "user") eqn:Hr; [left; eauto|].
      right. split; [done|]. intros (p & [= <-] & ?). congruence.
    + right. split; [done|]. intros (p & ? & _). done.
  - apply pop_if_user_at_most_one.
  - intros m Hn. simpl. by rewrite (Hstep [] m [] Hn eq_refl).
Qed.

(** C3. The window is the last 16 cleaned entries in their order: with
    more than 16 cleaned entries exactly 16 remain and the oldest
    [length cleaned - 16] are dropped; and whatever the history, the input
    is formatted from at most 16 of its messages. *)
Theorem window_keeps_last_16 (raw : list JsVal) :
  (forall cleaned, loop raw [] = Ok cleaned ->
     buildModelInput NumberToString raw blocked
     = formatInput NumberToString (window cleaned) /\
     window cleaned = last_n 16 cleaned /\
     ((16 < length cleaned)%nat ->
        length (window cleaned) = 16%nat /\
        exists oldest,
          cleaned = oldest ++ window cleaned /\
          length oldest = (length cleaned - 16)%nat))
  /\
  (forall mi, buildModelInput NumberToString raw blocked = Ok mi ->
     exists windowed,
       (length windowed <= 16)%nat /\ windowed `sublist_of` raw /\
       formatInput NumberToString windowed = Ok mi).
Proof.
  split.
  - intros cleaned Hloop. split; [by apply buildModelInput_window|].
    split; [apply window_last_n|]. intros Hlen. split.
    + rewrite window_length. lia.
    + exists (take (length cleaned - 16) cleaned). split.
      * apply window_suffix.
      * rewrite length_take. lia.
  - intros mi (cleaned & _ & _ & Hsub & Hfmt)%buildModelInput_ok.
    exists (window cleaned). split; [|split; [|done]].
    + rewrite window_length. lia.
    + etrans; [apply window_sublist | done].
Qed.

(** ** The formatting *)

Lemma render_transcript_line (m : JsVal) :
  nullish m = false ->
  render NumberToString m =
  let* line := transcript_line NumberToString m in Ok (default EmptyString line).
Proof.
  intros Hm. unfold render, transcript_line.
  rewrite !get_prop_field by done. simpl. rewrite !strict_eq_role.
  destruct (has_role m "user").
  - destruct (ToString _ _); reflexivity.
  - simpl. destruct (has_role m "assistant"); [|done].
    destruct (ToString _ _); reflexivity.
Qed.

Lemma transcript_line_nonempty (m : JsVal) (s : string) :
  transcript_line NumberToString m = Ok (Some s) -> truthy (JStr s) = true.
Proof.
  unfold transcript_line.
  destruct (has_role m "user"); [|destruct (has_role m "assistant")];
    [| |discriminate];
    destruct (ToString _ _); simpl; intros [= <-]; reflexivity.
Qed.

Lemma conversationText_transcript (windowed : list JsVal) :
  readable windowed ->
  conversationText NumberToString windowed = transcript NumberToString windowed.
Proof.
  intros Hall. unfold conversationText, transcript.
  enough (H : forall (k : list string -> string),
    (let* rendered := Array_map (render NumberToString) windowed in
     Ok (k (List.filter (fun s => truthy (JStr s)) rendered)))
    = (let* lines := Array_map (transcript_line NumberToString) windowed in
       Ok (k (omap id lines)))) by apply H.
  induction Hall as [|m w Hm Hw IH]; intros k; simpl; [done|].
  rewrite render_transcript_line by done.
  destruct (transcript_line NumberToString m) as [line|e] eqn:Hline; simpl; [|done].
  destruct line as [s|]; simpl.
  - specialize (IH (fun l => k (s :: l))). simpl in IH.
    destruct (Array_map (render NumberToString) w) as [rendered|e]; simpl in *.
    + pose proof (transcript_line_nonempty m s Hline) as Hs.
      simpl in Hs. rewrite Hs.
      destruct (Array_map (transcript_line NumberToString) w); exact IH.
    + destruct (Array_map (transcript_line NumberToString) w); exact IH.
  - specialize (IH k).
    destruct (Array_map (render NumberToString) w) as [rendered|e]; simpl in *;
      destruct (Array_map (transcript_line NumberToString) w); exact IH.
Qed.

Lemma formatInput_single_user (m : JsVal) :
  has_role m "user" = true ->
  formatInput NumberToString [m] =
  Ok {| instructions := the_instructions; input := field m "content" |}.
Proof.
  intros Hr. assert (Hm : nullish m = false).
  { unfold has_role in Hr. by destruct m. }
  unfold formatInput, array_at. simpl.
  rewrite !get_prop_field by done. simpl. by rewrite strict_eq_role, Hr.
Qed.

Lemma formatInput_transcript (windowed : list JsVal) :
  readable windowed ->
  (forall m, windowed = [m] -> has_role m "user" = false) ->
  formatInput NumberToString windowed =
  let* text := transcript NumberToString windowed in
  Ok {| instructions := the_instructions; input := JStr text |}.
Proof.
  intros Hall Hmulti. unfold formatInput.
  rewrite conversationText_transcript by done.
  destruct windowed as [|m [|m' w]]; simpl length; simpl Nat.eqb; cbv iota.
  - reflexivity.
  - unfold array_at. simpl lookup. simpl default.
    rewrite get_prop_field by (by inversion Hall). simpl bind.
    rewrite strict_eq_role, (Hmulti m eq_refl). reflexivity.
  - reflexivity.
Qed.

Lemma window_readable (cleaned : list JsVal) :
  Forall (kept blocked) cleaned -> readable (window cleaned).
Proof.
  intros H. eapply Forall_sublist; [apply window_sublist | by apply kept_readable].
Qed.

Lemma transcript_entry_line (m : JsVal) (line : option string) :
  transcript_entry NumberToString m line ->
  transcript_line NumberToString m = Ok line.
Proof.
  unfold transcript_line. intros [m' text Hr Ht | m' text Hr Ht | m' Hu Ha].
  - by rewrite Hr, Ht.
  - assert (Hu : has_role m' "user" = false).
    { unfold has_role in *. destruct (field m' "role") as [| | | |r| |]; try done.
      apply String.eqb_eq in Hr as ->. done. }
    by rewrite Hu, Hr, Ht.
  - by rewrite Hu, Ha.
Qed.

Lemma transcript_entries_lines (windowed : list JsVal) (lines : list (option string)) :
  Forall2 (transcript_entry NumberToString) windowed lines ->
  Array_map (transcript_line NumberToString) windowed = Ok lines.
Proof.
  induction 1 as [|m line w lines Hm Hw IH]; simpl; [done|].
  by rewrite (transcript_entry_line m line Hm), IH.
Qed.

Lemma written_omap (lines : list (option string)) : omap id lines = written lines.
Proof. induction lines as [|[line|] lines IH]; simpl; [done| |done]. by rewrite <- IH. Qed.

Lemma join_blank_concat (lines : list string) :
  String.concat (nl +:+ nl) lines = join_blank lines.
Proof.
  induction lines as [|line [|line' lines] IH]; [done..|].
  change (String.concat (nl +:+ nl) (line :: line' :: lines))
    with (line +:+ (nl +:+ nl) +:+ String.concat (nl +:+ nl) (line' :: lines)).
  by rewrite IH.
Qed.

Lemma transcript_entries_exist (windowed : list JsVal) :
  Forall (renderable NumberToString) windowed ->
  exists lines, Forall2 (transcript_entry NumberToString) windowed lines.
Proof.
  induction 1 as [|m w [Hm [text Htext]] Hw [lines IH]]; [by exists []|].
  destruct (has_role m "user") eqn:Hu.
  - exists (Some ("User: " +:+ text) :: lines). constructor; [by constructor | done].
  - destruct (has_role m "assistant") eqn:Ha.
    + exists (Some ("Assistant: " +:+ text) :: lines).
      constructor; [by apply entry_assistant | done].
    + exists (None :: lines). constructor; [by constructor | done].
Qed.

(** C4. With [windowed] the window of the cleaned sequence: if it is one
    entry of role "user", the input is that entry's content itself, with
    no prefix. Otherwise, whenever every entry contributes as
    [transcript_entry] says (a user entry the line "User: <content>", an
    assistant entry the line "Assistant: <content>", an entry of another
    role nothing), the input is these lines, in order, joined with a
    blank line; the entries of a window that can be rendered do
    contribute so. The empty history gives the empty string. *)
Theorem formatting_of_window (raw cleaned : list JsVal) :
  loop raw [] = Ok cleaned ->
  (forall m, window cleaned = [m] -> has_role m "user" = true ->
     buildModelInput NumberToString raw blocked =
     Ok {| instructions := the_instructions; input := field m "content" |})
  /\
  (forall lines,
     (forall m, window cleaned = [m] -> has_role m "user" = false) ->
     Forall2 (transcript_entry NumberToString) (window cleaned) lines ->
     buildModelInput NumberToString raw blocked =
     Ok {| instructions := the_instructions;
           input := JStr (join_blank (written lines)) |})
  /\
  (Forall (renderable NumberToString) (window cleaned) ->
   exists lines, Forall2 (transcript_entry NumberToString) (window cleaned) lines)
  /\
  buildModelInput NumberToString [] blocked =
  Ok {| instructions := the_instructions; input := JStr EmptyString |}.
Proof.
  intros Hloop. rewrite (buildModelInput_window raw cleaned Hloop).
  destruct (clean_loop_kept raw [] cleaned) as [Hkept _]; [done..|].
  split; [|split; [|split]].
  - intros m -> Hr. by apply formatInput_single_user.
  - intros lines Hmulti Hlines.
    rewrite formatInput_transcript by (by try apply window_readable).
    unfold transcript. rewrite (transcript_entries_lines _ _ Hlines). simpl.
    by rewrite written_omap, join_blank_concat.
  - apply transcript_entries_exist.
  - reflexivity.
Qed.

(** ** Entries of other roles *)

Lemma clean_step_appends (cleaned : list JsVal) (m : JsVal) :
  nullish m = false -> excluded blocked m = false -> is_notice m = false ->
  step cleaned m = Ok (cleaned ++ [m]).
Proof.
  intros Hm Hex Hn. unfold clean_step.
  rewrite get_prop_field by done. simpl. rewrite strict_eq_role.
  apply orb_false_iff in Hex as [-> Hb]. simpl.
  rewrite isBlockedUserContent_spec, Hb by done. simpl.
  by rewrite looksLikeGuardrailNotice_spec, Hn by done.
Qed.

Lemma conversationText_skips_empty (m : JsVal) (before after : list JsVal) :
  render NumberToString m = Ok EmptyString ->
  conversationText NumberToString (before ++ m :: after)
  = conversationText NumberToString (before ++ after).
Proof.
  intros Hr. unfold conversationText.
  generalize (String.concat (nl +:+ nl)). intros k. revert k.
  induction before as [|x before IH]; intros k; simpl.
  - rewrite Hr. simpl.
    destruct (Array_map (render NumberToString) after); reflexivity.
  - destruct (render NumberToString x) as [y|e]; simpl; [|done].
    specialize (IH (fun l => k (if truthy (JStr y) then y :: l else l))).
    destruct (Array_map _ (before ++ m :: after));
      destruct (Array_map _ (before ++ after)); simpl in *; exact IH.
Qed.

(** C10. An entry that can be read and whose role is none of "system",
    "user" and "assistant" is appended to the cleaned sequence; it renders
    as the empty string and adds nothing to the conversation text; and it
    counts for the window: appended to 16 cleaned entries, it pushes the
    oldest of them out. *)
Theorem other_role_counts_but_renders_empty (m : JsVal) :
  nullish m = false ->
  has_role m "system" = false -> has_role m "user" = false ->
  has_role m "assistant" = false ->
  (forall cleaned, step cleaned m = Ok (cleaned ++ [m])) /\
  render NumberToString m = Ok EmptyString /\
  (forall before after,
     conversationText NumberToString (before ++ m :: after)
     = conversationText NumberToString (before ++ after)) /\
  (forall raw oldest rest,
     loop raw [] = Ok (oldest :: rest) -> length rest = 15%nat ->
     buildModelInput NumberToString raw blocked
     = formatInput NumberToString (oldest :: rest) /\
     buildModelInput NumberToString (raw ++ [m]) blocked
     = formatInput NumberToString (rest ++ [m])).
Proof.
  intros Hm Hsys Huser Hassist.
  assert (Hstep : forall cleaned, step cleaned m = Ok (cleaned ++ [m])).
  { intros cleaned. apply clean_step_appends; [done| |].
    - unfold excluded, blocked_user. by rewrite Hsys, Huser.
    - unfold is_notice. by rewrite Hassist. }
  assert (Hrender : render NumberToString m = Ok EmptyString).
  { unfold render. rewrite !get_prop_field by done. simpl.
    by rewrite !strict_eq_role, Huser, Hassist. }
  split; [done|]. split; [done|]. split.
  - intros before after. by apply conversationText_skips_empty.
  - intros raw oldest rest Hloop Hlen. split.
    + rewrite (buildModelInput_window raw _ Hloop). unfold window. simpl length.
      rewrite Hlen. reflexivity.
    + unfold buildModelInput. rewrite clean_loop_app, Hloop. simpl.
      rewrite Hstep. simpl. unfold window.
      simpl length. rewrite length_app. simpl length. rewrite Hlen. reflexivity.
Qed.

(** ** Totality on readable histories *)

Lemma clean_loop_total (raw cleaned : list JsVal) :
  readable raw -> readable cleaned ->
  exists cleaned', loop raw cleaned = Ok cleaned'.
Proof.
  intros Hraw. revert cleaned.
  induction Hraw as [|m raw Hm Hraw IH]; intros cleaned Hc; simpl; [eauto|].
  rewrite clean_step_spec by done. simpl. apply IH.
  destruct (excluded blocked m); [done|].
  destruct (is_notice m); [by apply readable_pop_if_user|].
  apply Forall_app. split; [done|]. by constructor.
Qed.

Lemma transcript_total (windowed : list JsVal) :
  Forall (renderable NumberToString) windowed ->
  exists text, transcript NumberToString windowed = Ok text.
Proof.
  intros Hall. unfold transcript.
  enough (exists lines, Array_map (transcript_line NumberToString) windowed = Ok lines)
    as [lines ->] by (simpl; eauto).
  induction Hall as [|m w [Hm [text Htext]] Hw [lines IH]]; simpl; [eauto|].
  rewrite IH. unfold transcript_line. rewrite Htext.
  destruct (has_role m "user"); [|destruct (has_role m "assistant")]; simpl; eauto.
Qed.

Lemma formatInput_total (windowed : list JsVal) :
  Forall (renderable NumberToString) windowed ->
  exists mi,
    formatInput NumberToString windowed = Ok mi /\
    instructions mi = the_instructions /\
    (Forall (fun m => exists c, field m "content" = JStr c) windowed ->
       exists text, input mi = JStr text).
Proof.
  intros Hall. assert (Hread : readable windowed).
  { eapply Forall_impl; [exact Hall|]. by intros m [? _]. }
  destruct (transcript_total windowed Hall) as [text Htext].
  assert (Hmulti : (forall m, windowed = [m] -> has_role m "user" = false) ->
    exists mi, formatInput NumberToString windowed = Ok mi /\
      instructions mi = the_instructions /\
      (Forall (fun m => exists c, field m "content" = JStr c) windowed ->
         exists text, input mi = JStr text)).
  { intros H. rewrite formatInput_transcript, Htext by done. simpl. eauto 6. }
  destruct windowed as [|m [|m' w]]; [by apply Hmulti | | by apply Hmulti].
  destruct (has_role m "user") eqn:Hr.
  - rewrite formatInput_single_user by done. eexists. split; [done|].
    split; [done|]. simpl. intros Hc. inversion Hc as [|? ? [c Hcontent] _]. eauto.
  - apply Hmulti. by intros ? [= <-].
Qed.

(** C8, as the code has it. [buildModelInput] returns, with the fixed
    instructions, on every history whose entries can be read (none is
    [null] or [undefined]) and have a content that converts to a string;
    the input is a string when every content is one. An entry whose
    content is not a string is not skipped: unless its role is "system" it
    is appended to the cleaned sequence. *)
Theorem buildModelInput_total_on_renderable (raw : list JsVal) :
  (Forall (renderable NumberToString) raw ->
     exists mi,
       buildModelInput NumberToString raw blocked = Ok mi /\
       instructions mi = the_instructions /\
       (Forall (fun m => exists c, field m "content" = JStr c) raw ->
          exists text, input mi = JStr text))
  /\
  (forall m cleaned,
     nullish m = false -> has_role m "system" = false ->
     text_content m = None ->
     step cleaned m = Ok (cleaned ++ [m])).
Proof.
  split.
  - intros Hall. assert (Hread : readable raw).
    { eapply Forall_impl; [exact Hall|]. by intros m [? _]. }
    destruct (clean_loop_total raw [] Hread) as [cleaned Hloop]; [constructor|].
    destruct (clean_loop_kept raw [] cleaned) as [_ Hsub]; [done..|].
    assert (Hw : window cleaned `sublist_of` raw)
      by (etrans; [apply window_sublist | done]).
    rewrite (buildModelInput_window raw cleaned Hloop).
    destruct (formatInput_total (window cleaned)) as (mi & Hmi & Hinstr & Hstr).
    { by eapply Forall_sublist. }
    exists mi. split; [done|]. split; [done|].
    intros Hc. apply Hstr. by eapply Forall_sublist.
  - intros m cleaned Hm Hsys Hcontent. apply clean_step_appends; [done| |].
    + unfold excluded, blocked_user. rewrite Hsys, Hcontent. simpl.
      apply andb_false_r.
    + unfold is_notice. rewrite Hcontent. apply andb_false_r.
Qed.

End SanitizerProofs.

(** ** Response extraction *)

Lemma get_index_first (v : JsVal) :
  nullish v = false -> get_index v 0 = Ok (first_of v).
Proof.
  destruct v as [| | | |s|items|fields]; simpl; try done.
  - by destruct s.
  - by destruct items.
Qed.

Lemma get_prop_opt_field (v : JsVal) (k : string) :
  String.eqb k "length" = false -> get_prop_opt v k = Ok (field v k).
Proof. intros Hk. destruct v; simpl; rewrite ?Hk; reflexivity. Qed.

Lemma truthy_not_nullish (v : JsVal) : truthy v = true -> nullish v = false.
Proof. by destruct v. Qed.

Lemma hasType_spec (ty : string) (item : JsVal) :
  nullish item = false -> hasType ty item = Ok (typed ty item).
Proof.
  intros Hi. unfold hasType, typed. rewrite get_prop_field by done. simpl.
  by destruct (field item "type").
Qed.

Lemma Array_find_ok (ty : string) (items : list JsVal) (v : JsVal) :
  Array_find (hasType ty) items = Ok v ->
  v = default JUndefined (List.find (typed ty) items).
Proof.
  induction items as [|item items IH]; simpl; [congruence|].
  destruct (nullish item) eqn:Hi.
  - unfold hasType. destruct (get_prop_nullish item "type" Hi) as [e ->]. done.
  - rewrite hasType_spec by done. simpl.
    destruct (typed ty item); [by intros [= <-] | exact IH].
Qed.

Lemma Array_find_total (ty : string) (items : list JsVal) :
  readable items -> exists v, Array_find (hasType ty) items = Ok v.
Proof.
  induction 1 as [|item items Hi Hitems IH]; simpl; [eauto|].
  rewrite hasType_spec by done. simpl. destruct (typed ty item); eauto.
Qed.

Lemma find_typed_readable (ty : string) (items : list JsVal) (v : JsVal) :
  List.find (typed ty) items = Some v -> nullish v = false.
Proof.
  intros [_ H]%find_some. unfold typed in H. by destruct v.
Qed.

Lemma find_typed_truthy (ty : string) (items : list JsVal) (v : JsVal) :
  List.find (typed ty) items = Some v -> truthy v = true.
Proof.
  intros [_ H]%find_some. unfold typed in H. by destruct v.
Qed.

Lemma field_truthy (v : JsVal) (k : string) :
  truthy (field v k) = true -> nullish v = false.
Proof. by destruct v. Qed.

Lemma field_of_falsy (v : JsVal) (k : string) :
  truthy v = false -> field v k = JUndefined.
Proof. by destruct v. Qed.

Lemma first_of_falsy (v : JsVal) : truthy v = false -> first_of v = JUndefined.
Proof. destruct v as [| | | |s| |]; try done. by destruct s. Qed.

Ltac split_ifs :=
  repeat match goal with
         | |- context [if ?b then _ else _] => destruct b; simpl
         end.

Ltac read_fields :=
  repeat match goal with
         | |- context [get_prop ?v ?k] =>
             rewrite (get_prop_field v k) by
               (first [ done
                      | eauto using truthy_not_nullish, find_typed_readable,
                          field_truthy ])
         end;
  simpl bind.

(** The structured path leaves [responseText] alone unless it finds the
    answer of [structured_answer]. *)
Lemma structuredText_ok (resp responseText v : JsVal) :
  nullish resp = false ->
  structuredText resp responseText = Ok v ->
  v = default responseText (structured_answer resp).
Proof.
  intros Hresp. unfold structuredText, structured_answer. read_fields.
  destruct (field resp "output") as [| | | | |items|] eqn:Hout; simpl;
    try solve [split_ifs; intros; congruence].
  destruct (Array_find (hasType "message") items) as [message|e] eqn:Hfind;
    simpl; [|discriminate].
  apply Array_find_ok in Hfind.
  destruct (List.find (typed "message") items) as [message'|] eqn:Hmsg;
    simpl in Hfind; subst message; simpl; [|congruence].
  pose proof (find_typed_readable _ _ _ Hmsg) as Hm'.
  rewrite (find_typed_truthy _ _ _ Hmsg). read_fields.
  destruct (field message' "content") as [| | | | |parts|] eqn:Hcontent; simpl;
    try solve [split_ifs; intros; congruence].
  simpl elements.
  destruct (Array_find (hasType "output_text") parts) as [part|e] eqn:Hfind;
    simpl; [|discriminate].
  apply Array_find_ok in Hfind.
  destruct (List.find (typed "output_text") parts) as [part'|] eqn:Hpart;
    simpl in Hfind; subst part; simpl; [|congruence].
  pose proof (find_typed_readable _ _ _ Hpart) as Hp'.
  rewrite (find_typed_truthy _ _ _ Hpart). read_fields.
  destruct (truthy (field part' "text")); simpl; read_fields; congruence.
Qed.

Lemma structuredText_total (resp responseText : JsVal) :
  nullish resp = false -> typed_items resp ->
  exists v, structuredText resp responseText = Ok v.
Proof.
  intros Hresp [Hitems Hparts]. unfold structuredText. read_fields.
  destruct (field resp "output") as [| | | | |items|] eqn:Hout; simpl;
    try solve [split_ifs; eauto].
  simpl in Hitems, Hparts.
  destruct (Array_find_total "message" items Hitems) as [message Hfind].
  rewrite Hfind. simpl. apply Array_find_ok in Hfind.
  destruct (List.find (typed "message") items) as [message'|] eqn:Hmsg;
    simpl in Hfind; subst message; simpl; [|eauto].
  pose proof (find_typed_readable _ _ _ Hmsg) as Hm'.
  specialize (Hparts message' eq_refl).
  rewrite (find_typed_truthy _ _ _ Hmsg). read_fields.
  destruct (field message' "content") as [| | | | |parts|] eqn:Hcontent; simpl;
    try solve [split_ifs; eauto].
  simpl elements. simpl in Hparts.
  destruct (Array_find_total "output_text" parts Hparts) as [part Hfind].
  rewrite Hfind. simpl. apply Array_find_ok in Hfind.
  destruct (List.find (typed "output_text") parts) as [part'|] eqn:Hpart;
    simpl in Hfind; subst part; simpl; [|eauto].
  pose proof (find_typed_readable _ _ _ Hpart) as Hp'.
  rewrite (find_typed_truthy _ _ _ Hpart). read_fields.
  destruct (truthy (field part' "text")); simpl; read_fields; eauto.
Qed.

Lemma structured_answer_truthy (resp text : JsVal) :
  structured_answer resp = Some text -> truthy text = true.
Proof.
  unfold structured_answer. intros H.
  repeat match type of H with
         | match ?x with _ => _ end = _ => destruct x eqn:?; try discriminate
         | (if ?b then _ else _) = _ => destruct b eqn:?; try discriminate
         end.
  by injection H as <-.
Qed.

Lemma field_readable (v : JsVal) (k : string) :
  nullish (field v k) = false -> nullish v = false.
Proof. by destruct v. Qed.

(** The fallback chain returns the first truthy candidate, else the
    sentinel; it never throws. *)
Lemma fallbackText_spec (resp : JsVal) :
  nullish resp = false ->
  fallbackText resp =
  Ok (default (JStr PARSE_FAILURE) (List.find truthy (fallback_candidates resp))).
Proof.
  intros Hresp. unfold fallbackText, fallback_candidates. simpl List.find.
  read_fields.
  destruct (truthy (field resp "response")) eqn:H1; [by read_fields|].
  read_fields.
  destruct (truthy (field resp "content")) eqn:H2; [by read_fields|].
  read_fields.
  assert (Hresult :
    (let* from_result :=
       if truthy (field resp "result")
       then let* response := get_prop (field resp "result") "response" in
            Ok (truthy response)
       else Ok false in
     if from_result
     then get_prop (field resp "result") "response"
     else Ok (JStr PARSE_FAILURE))
    = Ok (default (JStr PARSE_FAILURE)
            (if truthy (field (field resp "result") "response")
             then Some (field (field resp "result") "response")
             else None))).
  { destruct (truthy (field resp "result")) eqn:H5.
    - rewrite !(get_prop_field (field resp "result") "response")
        by eauto using truthy_not_nullish.
      simpl bind.
      by destruct (truthy (field (field resp "result") "response")).
    - simpl. by rewrite (field_of_falsy _ "response" H5). }
  destruct (truthy (field resp "choices")) eqn:H3.
  - rewrite get_index_first by eauto using truthy_not_nullish. simpl bind.
    rewrite get_prop_opt_field by done. simpl bind.
    rewrite get_prop_opt_field by done. simpl bind.
    destruct (truthy (field (field (first_of (field resp "choices")) "message")
                        "content")) eqn:H4.
    + pose proof (field_truthy _ _ H4) as Hmessage.
      pose proof (field_readable _ _ Hmessage) as Hfirst.
      rewrite (get_prop_field (first_of (field resp "choices")) "message") by done.
      simpl bind.
      by rewrite (get_prop_field (field (first_of (field resp "choices")) "message")
                "content") by done.
    + exact Hresult.
  - simpl bind. cbv iota.
    rewrite (first_of_falsy _ H3). simpl field at 1. simpl truthy at 1.
    cbv iota. exact Hresult.
Qed.

Lemma extractResponseText_string (s : string) :
  extractResponseText (JStr s) = Ok (JStr s).
Proof. reflexivity. Qed.

Lemma extractResponseText_ok (result v : JsVal) :
  is_object result = true ->
  extractResponseText result = Ok v -> v = resolve result.
Proof.
  intros Hobj. assert (Hresult : nullish result = false) by (by destruct result).
  unfold extractResponseText.
  replace (String.eqb (typeof result) "string") with false by (by destruct result).
  replace (truthy result && String.eqb (typeof result) "object") with true
    by (by destruct result).
  intros (text & Hstruct & Hrest)%bind_ok.
  apply structuredText_ok in Hstruct; [|done].
  replace (resolve result) with
    (match structured_answer result with
     | Some text => text
     | None => default (JStr PARSE_FAILURE)
                 (List.find truthy (fallback_candidates result))
     end) by (by destruct result).
  destruct (structured_answer result) as [answer|] eqn:Hanswer;
    simpl in Hstruct; subst text.
  - rewrite (structured_answer_truthy _ _ Hanswer) in Hrest. simpl in Hrest.
    congruence.
  - simpl in Hrest. rewrite fallbackText_spec in Hrest by done. congruence.
Qed.

Lemma extractResponseText_total (result : JsVal) :
  is_object result = true -> typed_items result ->
  exists v, extractResponseText result = Ok v.
Proof.
  intros Hobj Hitems.
  assert (Hresult : nullish result = false) by (by destruct result).
  unfold extractResponseText.
  replace (String.eqb (typeof result) "string") with false by (by destruct result).
  replace (truthy result && String.eqb (typeof result) "object") with true
    by (by destruct result).
  destruct (structuredText_total result (JStr EmptyString) Hresult Hitems)
    as [text ->].
  simpl. destruct (truthy text); simpl; [eauto|].
  rewrite fallbackText_spec by done. eauto.
Qed.

(** C6. Extraction returns a string as it is. On an object it returns
    what the resolution order gives, [resolve]: the non-empty text of the
    first [output_text] part of the first [message] element of [output];
    failing that the first truthy one of [result.response],
    [result.content], [result.choices[0].message.content] and
    [result.result.response], in this order. Whenever it returns, it
    returns that value; and it returns on every object whose searched
    elements have a type to read. *)
Theorem extraction_resolution_order :
  (forall s, extractResponseText (JStr s) = Ok (JStr s)) /\
  (forall result v,
     is_object result = true ->
     extractResponseText result = Ok v -> v = resolve result) /\
  (forall result,
     is_object result = true -> typed_items result ->
     extractResponseText result = Ok (resolve result)).
Proof.
  split; [exact extractResponseText_string|]. split.
  - exact extractResponseText_ok.
  - intros result Hobj Hitems.
    destruct (extractResponseText_total result Hobj Hitems) as [v Hv].
    by rewrite Hv, (extractResponseText_ok result v Hobj Hv).
Qed.

(** C7, as the code has it. Extraction returns a string as it is; on
    every result that is an object whose searched elements have a type to
    read, it returns without throwing, and when no resolution step finds a
    text it returns the sentinel "Error: Could not parse AI response". *)
Theorem extraction_sentinel :
  (forall s, extractResponseText (JStr s) = Ok (JStr s)) /\
  (forall result,
     is_object result = true -> typed_items result ->
     (exists v, extractResponseText result = Ok v) /\
     (structured_answer result = None ->
      Forall (fun candidate => truthy candidate = false)
             (fallback_candidates result) ->
      extractResponseText result = Ok (JStr PARSE_FAILURE))).
Proof.
  split; [exact extractResponseText_string|].
  intros result Hobj Hitems. split; [by apply extractResponseText_total|].
  intros Hnone Hfalsy.
  destruct (extractResponseText_total result Hobj Hitems) as [v Hv].
  rewrite Hv. f_equal. rewrite (extractResponseText_ok result v Hobj Hv).
  assert (Hfind : List.find truthy (fallback_candidates result) = None).
  { destruct (List.find truthy (fallback_candidates result)) as [c|] eqn:Hc; [|done].
    apply find_some in Hc as [Hin Ht].
    rewrite Forall_forall in Hfalsy. apply list_elem_of_In in Hin.
    specialize (Hfalsy c Hin). congruence. }
  replace (resolve result) with
    (match structured_answer result with
     | Some text => text
     | None => default (JStr PARSE_FAILURE)
                 (List.find truthy (fallback_candidates result))
     end) by (by destruct result).
  by rewrite Hnone, Hfind.
Qed.

(** ** The pattern [\{.*\}] *)

Lemma dot_star_brace_substring (s m : string) :
  dot_star_brace s = Some m ->
  exists body post, s = m +:+ post /\ m = body +:+ "}".
Proof.
  revert m. induction s as [|c rest IH]; intros m; simpl; [done|].
  destruct (if is_line_terminator c then None else dot_star_brace rest)
    as [m'|] eqn:Hrest.
  - destruct (is_line_terminator c); [done|].
    destruct (IH m' Hrest) as (body & post & -> & ->).
    intros [= <-]. by exists (String c body), post.
  - destruct (Ascii.eqb c "}") eqn:Hc; [|done].
    apply Ascii.eqb_eq in Hc as ->.
    intros [= <-]. by exists EmptyString, rest.
Qed.

(** What [match] returns is a part of the message that opens with a brace
    and closes with one. *)
Lemma match_braces_substring (s json : string) :
  match_braces s = Some json ->
  exists pre body post,
    s = pre +:+ json +:+ post /\ json = "{" +:+ body +:+ "}".
Proof.
  revert json. induction s as [|c rest IH]; intros json; simpl; [done|].
  destruct (if Ascii.eqb c "{" then dot_star_brace rest else None)
    as [m|] eqn:Hm.
  - destruct (Ascii.eqb c "{") eqn:Hc; [|done].
    apply Ascii.eqb_eq in Hc as ->.
    destruct (dot_star_brace_substring rest m Hm) as (body & post & -> & ->).
    intros [= <-]. by exists EmptyString, body, post.
  - intros (pre & body & post & -> & ->)%IH.
    by exists (String c pre), body, post.
Qed.

(** ** The classification of a caught error *)

Lemma strict_eq_num (v : JsVal) (n : Z) :
  strict_eq v (JNum n) = true <-> v = JNum n.
Proof.
  destruct v; simpl; try (split; [discriminate | congruence]).
  rewrite Z.eqb_eq. split; congruence.
Qed.

Section HandlerProofs.

Variable NumberToString : Z -> string.
Variable JSON_parse : string -> Result JsVal.
Variable AI_run : string -> JsVal -> JsVal -> Result JsVal.

Local Abbreviation code_is error n :=
  (strict_eq (field (gateway_error JSON_parse error) "code") (JNum n)).

Lemma findGatewayError_spec (errorObj : JsVal) :
  nullish errorObj = false ->
  findGatewayError JSON_parse errorObj = Ok (gateway_error JSON_parse errorObj).
Proof.
  intros Herr. unfold findGatewayError, gateway_error.
  rewrite !(get_prop_field errorObj "message") by done. simpl bind.
  destruct (field errorObj "message") as [| | | |message| |]; simpl;
    try solve [split_ifs; reflexivity].
  destruct (String.eqb message EmptyString) eqn:Hempty; simpl.
  { apply String.eqb_eq in Hempty as ->. reflexivity. }
  destruct (match_braces message) as [json|]; simpl; [|done].
  destruct (JSON_parse json) as [parsed|e]; simpl; [|done].
  destruct (nullish parsed) eqn:Hparsed.
  { destruct (get_prop_nullish parsed "error" Hparsed) as [e ->]. simpl.
    by destruct parsed. }
  rewrite !(get_prop_field parsed "error") by done. simpl bind.
  destruct (field parsed "error") as [| | | | |errors|]; simpl;
    try solve [split_ifs; reflexivity].
  by destruct errors.
Qed.

Lemma hasCode_spec (gatewayError : JsVal) (code : Z) :
  hasCode gatewayError code
  = Ok (strict_eq (field gatewayError "code") (JNum code)).
Proof.
  unfold hasCode. destruct (truthy gatewayError) eqn:Ht.
  - by rewrite get_prop_field by eauto using truthy_not_nullish.
  - by rewrite (field_of_falsy _ _ Ht).
Qed.

Lemma catchBlock_spec (error : JsVal) :
  catchBlock JSON_parse error =
  Ok (if code_is error 2016 then promptBlockedResponse
      else if code_is error 2017 then responseBlockedResponse
      else genericErrorResponse).
Proof.
  unfold catchBlock.
  destruct (truthy error && String.eqb (typeof error) "object") eqn:Hobj.
  - assert (nullish error = false) by (by destruct error).
    rewrite findGatewayError_spec by done. simpl bind.
    rewrite !hasCode_spec. simpl bind.
    destruct (code_is error 2016); [done|]. simpl.
    by destruct (code_is error 2017).
  - simpl. replace (gateway_error JSON_parse error) with JNull; [done|].
    unfold gateway_error. destruct error; try done.
Qed.

Lemma embedded_code_spec (error : JsVal) (code : Z) :
  embedded_code JSON_parse error code <-> code_is error code = true.
Proof.
  rewrite strict_eq_num. unfold embedded_code, gateway_error. split.
  - intros (message & json & parsed & first & rest & -> & -> & -> & -> & Hcode).
    exact Hcode.
  - destruct (field error "message") as [| | | |message| |] eqn:Hmessage; try done.
    destruct (match_braces message) as [json|] eqn:Hmatch; [|done].
    destruct (JSON_parse json) as [parsed|e] eqn:Hparse; [|done].
    destruct (field parsed "error") as [| | | | |errors|] eqn:Herrors; try done.
    destruct errors as [|first rest]; [done|]. simpl. intros Hcode.
    by exists message, json, parsed, first, rest.
Qed.

Lemma tryBlock_status (request_json : Result JsVal) (response : Response) :
  tryBlock NumberToString AI_run request_json = Ok response ->
  status response = 200.
Proof.
  unfold tryBlock. intros H.
  repeat (apply bind_ok in H as (? & _ & H)).
  by injection H as <-.
Qed.

(** C9. [AI_GATEWAY_ID] is the non-empty "new-gateway", so every HTTP 400
    response of [handleChatRequest] has usingGateway true and carries the
    gateway wording of its details; no response of the [catch] block
    carries the wording without gateway. *)
Theorem policy_block_uses_gateway :
  AI_GATEWAY_ID = "new-gateway" /\ truthy (JStr AI_GATEWAY_ID) = true /\
  (forall request_json response,
     handleChatRequest NumberToString JSON_parse AI_run request_json = Ok response ->
     status response = 400 ->
     usingGateway response = JBool true /\
     ((errorType response = JStr "prompt_blocked" /\
       details response = JStr PROMPT_DETAILS_GATEWAY) \/
      (errorType response = JStr "response_blocked" /\
       details response = JStr RESPONSE_DETAILS_GATEWAY)))
  /\
  (forall error response,
     catchBlock JSON_parse error = Ok response ->
     details response <> JStr PROMPT_DETAILS_DIRECT /\
     details response <> JStr RESPONSE_DETAILS_DIRECT).
Proof.
  split; [done|]. split; [done|]. split.
  - intros request_json response. unfold handleChatRequest.
    destruct (tryBlock NumberToString AI_run request_json) as [r|error] eqn:Htry; simpl.
    + intros [= <-] Hstatus. apply tryBlock_status in Htry. congruence.
    + rewrite catchBlock_spec. intros [= <-].
      destruct (code_is error 2016); [intros _; split; [done | by left]|].
      destruct (code_is error 2017); [intros _; split; [done | by right]|].
      done.
  - intros error response. rewrite catchBlock_spec. intros [= <-].
    destruct (code_is error 2016); [done|].
    destruct (code_is error 2017); done.
Qed.

End HandlerProofs.

(** * The model on concrete inputs *)

(** ** The examples of the specification *)

Example single_user_message_is_verbatim :
  buildModelInput decimal [msg "user" "Hello"] ∅
  = Ok {| instructions := the_instructions; input := JStr "Hello" |}.
Proof. vm_compute. reflexivity. Qed.

Example two_turns_are_a_transcript :
  buildModelInput decimal [msg "user" "Hi"; msg "assistant" "Hello!"] ∅
  = Ok {| instructions := the_instructions;
          input := JStr ("User: Hi" +:+ nl +:+ nl +:+ "Assistant: Hello!") |}.
Proof. vm_compute. reflexivity. Qed.

Example blocked_pair_is_dropped :
  clean_loop decimal ∅
    [msg "user" "hi"; notice_message] []
  = Ok [].
Proof. vm_compute. reflexivity. Qed.

Example lone_notice_is_dropped :
  clean_loop decimal ∅ [msg "assistant" "blocked by guardrails"] [] = Ok [].
Proof. vm_compute. reflexivity. Qed.

Example twenty_turns_keep_sixteen :
  clean_loop decimal ∅ (alternating 20) [] = Ok (alternating 20) /\
  window (alternating 20) = drop 4 (alternating 20) /\
  length (window (alternating 20)) = 16%nat.
Proof. vm_compute. done. Qed.

Example extract_plain_text :
  extractResponseText (JStr "plain text") = Ok (JStr "plain text").
Proof. reflexivity. Qed.

Example extract_structured : extractResponseText structured_result = Ok (JStr "answer").
Proof. vm_compute. reflexivity. Qed.

Example extract_legacy :
  extractResponseText (JObj [("response", JStr "legacy")]) = Ok (JStr "legacy").
Proof. vm_compute. reflexivity. Qed.

Example extract_nothing :
  extractResponseText (JObj []) = Ok (JStr "Error: Could not parse AI response").
Proof. vm_compute. reflexivity. Qed.

Example classify_prompt_blocked :
  catchBlock parse_json blocked_prompt_error = Ok promptBlockedResponse.
Proof. vm_compute. reflexivity. Qed.

Example classify_plain_failure :
  catchBlock parse_json (error_with "plain failure, no json")
  = Ok genericErrorResponse.
Proof. vm_compute. reflexivity. Qed.

(** The pattern is greedy: a brace after the JSON text is taken into the
    match, the text does not parse, and the error is not classified. *)
Example classify_trailing_brace :
  catchBlock parse_json
    (error_with (dq "{'error':[{'code':2016,'message':'x'}]} (see })"))
  = Ok genericErrorResponse.
Proof. vm_compute. reflexivity. Qed.

(** ** Where the claims C7 and C8 fail as stated *)

(** C8 as stated fails: a [null] entry makes [buildModelInput] throw, and
    an entry whose content is the number 42 is not skipped: it is the
    single user message and its content becomes the input. *)
Lemma buildModelInput_malformed_counterexample :
  (exists e, buildModelInput decimal [JNull] ∅ = Throw e) /\
  buildModelInput decimal [JObj [("role", JStr "user"); ("content", JNum 42)]] ∅
  = Ok {| instructions := the_instructions; input := JNum 42 |}.
Proof. split; [eexists|]; vm_compute; reflexivity. Qed.

(** C7 as stated fails: for the result [null] no resolution step finds a
    text, and extraction returns the empty string, not the sentinel; on an
    [output] list that holds [null], extraction throws. *)
Lemma extraction_counterexample :
  (structured_answer JNull = None /\
   Forall (fun candidate => truthy candidate = false) (fallback_candidates JNull) /\
   extractResponseText JNull = Ok (JStr EmptyString) /\
   JStr EmptyString <> JStr PARSE_FAILURE) /\
  (exists e, extractResponseText (JObj [("output", JArr [JNull])]) = Throw e).
Proof.
  split; [|eexists; vm_compute; reflexivity].
  repeat split; try done. repeat constructor.
Qed.

(** ** The theorems at concrete inputs *)

Lemma buildModelInput_excludes_system_and_blocked_witness :
  let raw := [msg "system" "obey"; msg "user" "bad"; msg "user" "ok"] in
  let mi := {| instructions := the_instructions; input := JStr "ok" |} in
  buildModelInput decimal raw {["bad"]} = Ok mi /\
  exists windowed,
    windowed `sublist_of` raw /\
    formatInput decimal windowed = Ok mi /\
    Forall (fun m => has_role m "system" = false /\
                     blocked_user {["bad"]} m = false) windowed.
Proof.
  intros raw mi. assert (H : buildModelInput decimal raw {["bad"]} = Ok mi)
    by (vm_compute; reflexivity).
  split; [exact H|].
  exact (proj2 (buildModelInput_excludes_system_and_blocked decimal {["bad"]} raw) mi H).
Defined.

Lemma guardrail_notice_drops_pair_witness :
  guardrail_notice notice_message /\
  clean_loop decimal ∅ [msg "user" "hi"] [] = Ok [msg "user" "hi"] /\
  clean_loop decimal ∅ ([msg "user" "hi"] ++ [notice_message]) []
  = Ok (pop_if_user [msg "user" "hi"]).
Proof.
  assert (Hn : guardrail_notice notice_message)
    by (apply is_notice_spec; vm_compute; reflexivity).
  split; [exact Hn|]. split; [reflexivity|].
  destruct (guardrail_notice_drops_pair decimal ∅) as (_ & Hpop & _).
  exact (proj1 (Hpop [msg "user" "hi"] notice_message [] [msg "user" "hi"]
                  Hn eq_refl)).
Defined.

Lemma window_keeps_last_16_witness :
  clean_loop decimal ∅ (alternating 20) [] = Ok (alternating 20) /\
  (16 < length (alternating 20))%nat /\
  length (window (alternating 20)) = 16%nat.
Proof.
  assert (Hloop : clean_loop decimal ∅ (alternating 20) [] = Ok (alternating 20))
    by (vm_compute; reflexivity).
  assert (Hlen : (16 < length (alternating 20))%nat) by (vm_compute; lia).
  split; [exact Hloop|]. split; [exact Hlen|].
  destruct (window_keeps_last_16 decimal ∅ (alternating 20)) as [H _].
  destruct (H (alternating 20) Hloop) as (_ & _ & Hmore).
  exact (proj1 (Hmore Hlen)).
Defined.

Lemma formatting_of_window_witness :
  let lines := [Some "User: Hi"; Some "Assistant: Hello!"; None] in
  clean_loop decimal ∅ two_turns_and_tool [] = Ok two_turns_and_tool /\
  (forall m, window two_turns_and_tool = [m] -> has_role m "user" = false) /\
  Forall2 (transcript_entry decimal) (window two_turns_and_tool) lines /\
  buildModelInput decimal two_turns_and_tool ∅
  = Ok {| instructions := the_instructions;
          input := JStr ("User: Hi" +:+ nl +:+ nl +:+ "Assistant: Hello!") |}.
Proof.
  intros lines.
  assert (Hloop : clean_loop decimal ∅ two_turns_and_tool [] = Ok two_turns_and_tool)
    by (vm_compute; reflexivity).
  assert (Hmulti : forall m, window two_turns_and_tool = [m] ->
                             has_role m "user" = false)
    by (intros m H; discriminate H).
  assert (Hlines : Forall2 (transcript_entry decimal)
                     (window two_turns_and_tool) lines).
  { constructor;
      [exact (entry_user decimal (msg "user" "Hi") "Hi" eq_refl eq_refl)|].
    constructor;
      [exact (entry_assistant decimal (msg "assistant" "Hello!") "Hello!"
                eq_refl eq_refl)|].
    constructor;
      [exact (entry_other decimal tool_message eq_refl eq_refl)|].
    constructor. }
  split; [exact Hloop|]. split; [exact Hmulti|]. split; [exact Hlines|].
  destruct (formatting_of_window decimal ∅ two_turns_and_tool two_turns_and_tool
              Hloop) as (_ & Htranscript & _).
  exact (Htranscript lines Hmulti Hlines).
Defined.

Lemma other_role_counts_but_renders_empty_witness :
  nullish tool_message = false /\
  has_role tool_message "system" = false /\
  has_role tool_message "user" = false /\
  has_role tool_message "assistant" = false /\
  clean_loop decimal ∅ (alternating 16) [] = Ok (alternating 16) /\
  buildModelInput decimal (alternating 16 ++ [tool_message]) ∅
  = formatInput decimal (drop 1 (alternating 16) ++ [tool_message]).
Proof.
  assert (Hloop : clean_loop decimal ∅ (alternating 16) [] = Ok (alternating 16))
    by (vm_compute; reflexivity).
  repeat (split; [first [exact Hloop | reflexivity]|]).
  destruct (other_role_counts_but_renders_empty decimal ∅ tool_message
              eq_refl eq_refl eq_refl eq_refl) as (_ & _ & _ & Hwindow).
  exact (proj2 (Hwindow (alternating 16) (msg "user" "0") (drop 1 (alternating 16))
                  Hloop eq_refl)).
Defined.

Lemma buildModelInput_total_on_renderable_witness :
  let raw := [msg "user" "Hi"; JObj [("role", JStr "assistant"); ("content", JNum 7)]] in
  Forall (renderable decimal) raw /\
  exists mi,
    buildModelInput decimal raw ∅ = Ok mi /\
    instructions mi = the_instructions /\
    (Forall (fun m => exists c, field m "content" = JStr c) raw ->
       exists text, input mi = JStr text).
Proof.
  intros raw. assert (H : Forall (renderable decimal) raw).
  { repeat constructor; eexists; reflexivity. }
  split; [exact H|].
  exact (proj1 (buildModelInput_total_on_renderable decimal ∅ raw) H).
Defined.

Lemma extraction_resolution_order_witness :
  is_object structured_result = true /\
  typed_items structured_result /\
  extractResponseText structured_result = Ok (resolve structured_result) /\
  resolve structured_result = JStr "answer".
Proof.
  assert (Hitems : typed_items structured_result).
  { split; [repeat constructor|].
    intros message [= <-]. repeat constructor. }
  split; [reflexivity|]. split; [exact Hitems|]. split; [|reflexivity].
  destruct extraction_resolution_order as (_ & _ & H).
  exact (H structured_result eq_refl Hitems).
Defined.

Lemma extraction_sentinel_witness :
  is_object (JObj [("status", JStr "done")]) = true /\
  typed_items (JObj [("status", JStr "done")]) /\
  extractResponseText (JObj [("status", JStr "done")]) = Ok (JStr PARSE_FAILURE).
Proof.
  assert (Hitems : typed_items (JObj [("status", JStr "done")])).
  { split; [constructor|]. intros message [=]. }
  split; [reflexivity|]. split; [exact Hitems|].
  apply (proj2 extraction_sentinel (JObj [("status", JStr "done")]) eq_refl Hitems).
  - reflexivity.
  - repeat constructor.
Defined.

Lemma policy_block_uses_gateway_witness :
  let response := promptBlockedResponse in
  handleChatRequest decimal parse_json (failing_run blocked_prompt_error)
    (Ok (JObj [("messages", JArr [msg "user" "hi"])]))
  = Ok response /\
  status response = 400 /\
  usingGateway response = JBool true.
Proof.
  intros response.
  assert (H : handleChatRequest decimal parse_json (failing_run blocked_prompt_error)
                (Ok (JObj [("messages", JArr [msg "user" "hi"])])) = Ok response)
    by (vm_compute; reflexivity).
  split; [exact H|]. split; [reflexivity|].
  destruct (policy_block_uses_gateway decimal parse_json
              (failing_run blocked_prompt_error)) as (_ & _ & Hgateway & _).
  exact (proj1 (Hgateway _ response H eq_refl)).
Defined.

(** * Further properties of the code *)

(** ** The sanitizer *)

Lemma append_assoc (a b c : string) : (a +:+ b) +:+ c = a +:+ (b +:+ c).
Proof. induction a as [|x a IH]; [done|]. by rewrite !append_cons, IH. Qed.

Lemma Canonicalize_idempotent (c : ascii) :
  Canonicalize (Canonicalize c) = Canonicalize c.
Proof. destruct c as [[] [] [] [] [] [] [] []]; reflexivity. Qed.

Lemma prefix_ci_fold_case (pat s : string) :
  prefix_ci pat (fold_case s) = prefix_ci pat s.
Proof.
  revert s. induction pat as [|a pat IH]; intros [|b s]; simpl; try done.
  by rewrite Canonicalize_idempotent, IH.
Qed.

Lemma search_ci_fold_case (pat s : string) :
  search_ci pat (fold_case s) = search_ci pat s.
Proof.
  induction s as [|b s IH].
  - reflexivity.
  - change (fold_case (String b s)) with (String (Canonicalize b) (fold_case s)).
    change (search_ci pat (String (Canonicalize b) (fold_case s)))
      with (prefix_ci pat (fold_case (String b s)) || search_ci pat (fold_case s)).
    change (search_ci pat (String b s))
      with (prefix_ci pat (String b s) || search_ci pat s).
    by rewrite prefix_ci_fold_case, IH.
Qed.

Section SanitizerExtras.

Variable NumberToString : Z -> string.

Local Abbreviation loop := (clean_loop NumberToString).
Local Abbreviation step := (clean_step NumberToString).

Lemma clean_loop_keeps (blocked : gset string) (l cleaned : list JsVal) :
  Forall (kept blocked) l -> loop blocked l cleaned = Ok (cleaned ++ l).
Proof.
  intros Hl. revert cleaned.
  induction Hl as [|m l (Hm & Hex & Hn) Hl IH]; intros cleaned; simpl.
  - by rewrite app_nil_r.
  - rewrite clean_step_appends by done. simpl. rewrite IH.
    by rewrite <- (assoc app).
Qed.

(** X1. The pass is idempotent: run again on the cleaned sequence it
    returns, it returns the same sequence, and [buildModelInput] on the
    cleaned sequence gives what it gives on the history. *)
Theorem sanitizer_idempotent (blocked : gset string) (raw cleaned : list JsVal) :
  loop blocked raw [] = Ok cleaned ->
  loop blocked cleaned [] = Ok cleaned /\
  buildModelInput NumberToString cleaned blocked
  = buildModelInput NumberToString raw blocked.
Proof.
  intros Hloop.
  destruct (clean_loop_kept NumberToString blocked raw [] cleaned) as [Hkept _];
    [done..|].
  assert (Hagain : loop blocked cleaned [] = Ok cleaned)
    by (by rewrite clean_loop_keeps).
  split; [done|]. unfold buildModelInput. by rewrite Hloop, Hagain.
Qed.

Lemma clean_step_block_sets (b1 b2 : gset string) (cleaned : list JsVal) (m : JsVal) :
  blocked_user b1 m = blocked_user b2 m ->
  step b1 cleaned m = step b2 cleaned m.
Proof.
  intros Hb. destruct (nullish m) eqn:Hm.
  - unfold clean_step. by destruct (get_prop_nullish m "role" Hm) as [e ->].
  - unfold clean_step. rewrite !isBlockedUserContent_spec by done. by rewrite Hb.
Qed.

(** X2. The block set is consulted for user messages only: two block sets
    that block the same user messages of a history give the same result;
    in particular a block set that matches no user message of the history
    is as good as the empty one. *)
Theorem block_set_matters_for_user_messages_only
    (raw : list JsVal) (b1 b2 : gset string) :
  (forall m, m ∈ raw -> blocked_user b1 m = blocked_user b2 m) ->
  buildModelInput NumberToString raw b1 = buildModelInput NumberToString raw b2.
Proof.
  intros Hsame. unfold buildModelInput.
  enough (H : forall cleaned, loop b1 raw cleaned = loop b2 raw cleaned)
    by (by rewrite H).
  induction raw as [|m raw IH]; intros cleaned; simpl; [done|].
  rewrite (clean_step_block_sets b1 b2) by (apply Hsame; left).
  destruct (step b2 cleaned m); simpl; [|done].
  apply IH. intros m' Hm'. apply Hsame. by right.
Qed.

Lemma pop_if_user_users (blocked : gset string) (cleaned : list JsVal) :
  Forall (kept_user blocked) cleaned ->
  pop_if_user cleaned = take (length cleaned - 1) cleaned.
Proof.
  intros Hall. unfold pop_if_user.
  destruct (last cleaned) as [prev|] eqn:Hlast.
  - assert (Hprev : has_role prev "user" = true).
    { rewrite last_lookup in Hlast.
      by destruct (Forall_lookup_1 _ _ _ _ Hall Hlast). }
    rewrite Hprev. apply last_Some in Hlast as [l' ->].
    rewrite removelast_last, length_app. simpl.
    replace (length l' + 1 - 1)%nat with (length l') by lia.
    by rewrite take_app_length.
  - apply last_None in Hlast as ->. done.
Qed.

Lemma clean_loop_notices (blocked : gset string) (notices cleaned : list JsVal) :
  Forall (kept_user blocked) cleaned -> Forall guardrail_notice notices ->
  loop blocked notices cleaned
  = Ok (take (length cleaned - length notices) cleaned).
Proof.
  intros Hc Hn. revert cleaned Hc.
  induction Hn as [|n notices Hnotice Hn IH]; intros cleaned Hc; simpl.
  - by rewrite Nat.sub_0_r, firstn_all.
  - apply is_notice_spec in Hnotice.
    assert (Hread : readable cleaned).
    { eapply Forall_impl; [exact Hc|]. by intros m [[? _] _]. }
    rewrite clean_step_spec; [|unfold is_notice, has_role in Hnotice; by destruct n|done].
    rewrite (notice_not_excluded blocked n Hnotice), Hnotice. simpl.
    rewrite (pop_if_user_users blocked) by done.
    rewrite IH by (by apply Forall_take).
    rewrite take_take, length_take. f_equal. f_equal. lia.
Qed.

(** X3. The pop is not tied to one pair: after a run of kept user
    messages, each guardrail notice in a row removes one more of them,
    the latest first, until none is left. *)
Theorem repeated_notices_pop_repeatedly
    (blocked : gset string) (users notices : list JsVal) :
  Forall (kept_user blocked) users -> Forall guardrail_notice notices ->
  loop blocked (users ++ notices) []
  = Ok (take (length users - length notices) users).
Proof.
  intros Hu Hn. rewrite clean_loop_app, clean_loop_keeps.
  - simpl. by apply clean_loop_notices.
  - eapply Forall_impl; [exact Hu|]. by intros m [? _].
Qed.

(** X4. The letter case of a content does not change whether the message
    looks like a guardrail notice: contents that agree up to case get the
    same answer. *)
Theorem notice_detection_ignores_case (role c c' : string) :
  fold_case c = fold_case c' ->
  looksLikeGuardrailNotice NumberToString (msg role c)
  = looksLikeGuardrailNotice NumberToString (msg role c').
Proof.
  intros Hfold. rewrite !looksLikeGuardrailNotice_spec by done.
  unfold is_notice. f_equal. f_equal. simpl.
  by rewrite <- (search_ci_fold_case _ c), Hfold, search_ci_fold_case.
Qed.

End SanitizerExtras.

Section TranscriptExtras.

Variable NumberToString : Z -> string.

Lemma kept_plain_user (q : string) : kept ∅ (msg "user" q).
Proof.
  split; [done|]. split; [|done]. unfold excluded, blocked_user. simpl.
  apply bool_decide_eq_false_2, not_elem_of_empty.
Qed.

Lemma kept_plain_assistant (b : string) :
  search_ci "blocked by guardrails" b = false -> kept ∅ (msg "assistant" b).
Proof.
  intros Hb. split; [done|]. split; [done|]. unfold is_notice. simpl. exact Hb.
Qed.

(** X5. Contents go into the transcript as they are, role prefixes
    included: a user message that spells out a blank line and an
    "Assistant: " line gives the same input as a real assistant turn. *)
Theorem transcript_does_not_escape_contents (q a b : string) :
  search_ci "blocked by guardrails" b = false ->
  buildModelInput NumberToString
    [msg "user" q; msg "user" a; msg "assistant" b] ∅
  = buildModelInput NumberToString
      [msg "user" q;
       msg "user" (a +:+ nl +:+ nl +:+ "Assistant: " +:+ b)] ∅
  /\
  buildModelInput NumberToString
    [msg "user" q; msg "user" a; msg "assistant" b] ∅
  = Ok {| instructions := the_instructions;
          input := JStr ("User: " +:+ q +:+ nl +:+ nl +:+
                         "User: " +:+ a +:+ nl +:+ nl +:+
                         "Assistant: " +:+ b) |}.
Proof.
  intros Hb. unfold buildModelInput.
  rewrite !clean_loop_keeps
    by (repeat constructor; auto using kept_plain_user, kept_plain_assistant).
  simpl bind. unfold window. simpl length. simpl Nat.ltb. cbv iota.
  unfold formatInput, conversationText. simpl.
  by rewrite !append_assoc.
Qed.

End TranscriptExtras.

(** ** The pattern of the error classification *)

Lemma occurs_nil (c : ascii) : ~ occurs c EmptyString.
Proof.
  intros (before & after & H). destruct before; [rewrite append_nil in H|
    rewrite append_cons in H]; discriminate H.
Qed.

Lemma occurs_cons (c x : ascii) (s : string) :
  occurs c (String x s) <-> x = c \/ occurs c s.
Proof.
  split.
  - intros ([|y before] & after & H).
    + rewrite append_nil in H. injection H as -> _. by left.
    + rewrite append_cons in H. injection H as _ ->. right. by exists before, after.
  - intros [-> | (before & after & ->)].
    + by exists EmptyString, s.
    + by exists (String x before), after.
Qed.

Lemma line_terminator_not_brace (c : ascii) :
  is_line_terminator c = true -> Ascii.eqb c "}" = false.
Proof.
  unfold is_line_terminator.
  intros [Hc | Hc]%orb_true_iff; apply Ascii.eqb_eq in Hc as ->; reflexivity.
Qed.

Lemma dot_star_brace_none (s : string) :
  dot_star_brace s = None <-> ~ occurs "}" (first_line s).
Proof.
  induction s as [|c rest IH]; simpl.
  - split; [intros _; apply occurs_nil | done].
  - destruct (is_line_terminator c) eqn:Hlt.
    + rewrite (line_terminator_not_brace c Hlt).
      split; [intros _; apply occurs_nil | done].
    + rewrite occurs_cons. destruct (dot_star_brace rest) as [m|].
      * split; [done|]. intros Hno.
        assert (H : ~ occurs "}" (first_line rest)) by (intros H; apply Hno; by right).
        apply IH in H. discriminate H.
      * destruct (Ascii.eqb c "}") eqn:Hc.
        -- apply Ascii.eqb_eq in Hc as ->. split; [done|]. intros H. exfalso. auto.
        -- apply Ascii.eqb_neq in Hc. split; [|done]. intros _ [H|H]; [done|].
           by apply (proj1 IH).
Qed.

Lemma match_braces_none_at (s : string) :
  match_braces s = None <->
  forall before after, s = before +:+ String "{" after -> dot_star_brace after = None.
Proof.
  induction s as [|c rest IH]; simpl.
  - split; [|done]. intros _ before after H.
    exfalso. apply (occurs_nil "{"). by exists before, after.
  - split.
    + intros Hnone [|y before] after H.
      * rewrite append_nil in H. injection H as -> ->.
        simpl in Hnone. by destruct (dot_star_brace after).
      * rewrite append_cons in H. injection H as _ ->.
        destruct (if Ascii.eqb c "{" then dot_star_brace _ else None); [done|].
        by apply (proj1 IH Hnone before after).
    + intros Hall.
      assert (Hhead : (if Ascii.eqb c "{" then dot_star_brace rest else None) = None).
      { destruct (Ascii.eqb c "{") eqn:Hc; [|done].
        apply Ascii.eqb_eq in Hc as ->. by apply (Hall EmptyString rest). }
      rewrite Hhead. apply IH. intros before after ->.
      by apply (Hall (String c before) after).
Qed.

(** X6. The pattern finds nothing exactly when no opening brace of the
    message has a closing brace after it on the same line. *)
Theorem match_braces_none (s : string) :
  match_braces s = None <->
  forall before after,
    s = before +:+ String "{" after -> ~ occurs "}" (first_line after).
Proof.
  rewrite match_braces_none_at. split; intros H before after Hs.
  - apply dot_star_brace_none. by apply (H before after).
  - apply dot_star_brace_none. by apply (H before after).
Qed.

Lemma dot_star_brace_greedy (s m : string) :
  dot_star_brace s = Some m ->
  exists body post,
    s = m +:+ post /\ m = body +:+ "}" /\
    first_line body = body /\ ~ occurs "}" (first_line post).
Proof.
  revert m. induction s as [|c rest IH]; intros m; simpl; [done|].
  destruct (is_line_terminator c) eqn:Hlt.
  - by rewrite (line_terminator_not_brace c Hlt).
  - destruct (dot_star_brace rest) as [m'|] eqn:Hrest.
    + destruct (IH m' eq_refl) as (body & post & -> & -> & Hbody & Hpost).
      intros [= <-]. exists (String c body), post.
      repeat split; [|done]. simpl. by rewrite Hlt, Hbody.
    + destruct (Ascii.eqb c "}") eqn:Hc; [|done].
      apply Ascii.eqb_eq in Hc as ->. intros [= <-].
      exists EmptyString, rest. repeat split. by apply dot_star_brace_none.
Qed.

(** X7. What the pattern finds: the text from the first opening brace
    that has a closing brace on its line, to the last closing brace of
    that line. The text stays on one line, no closing brace follows it
    on the line, and no opening brace before it could start a match. *)
Theorem match_braces_leftmost_greedy (s json : string) :
  match_braces s = Some json ->
  exists pre body post,
    s = pre +:+ json +:+ post /\
    json = "{" +:+ body +:+ "}" /\
    first_line body = body /\
    ~ occurs "}" (first_line post) /\
    (forall before after,
       pre = before +:+ String "{" after ->
       ~ occurs "}" (first_line (after +:+ json +:+ post))).
Proof.
  revert json. induction s as [|c rest IH]; intros json; simpl; [done|].
  destruct (if Ascii.eqb c "{" then dot_star_brace rest else None)
    as [m|] eqn:Hhead.
  - destruct (Ascii.eqb c "{") eqn:Hc; [|done].
    apply Ascii.eqb_eq in Hc as ->.
    destruct (dot_star_brace_greedy rest m Hhead)
      as (body & post & -> & -> & Hbody & Hpost).
    intros [= <-]. exists EmptyString, body, post.
    repeat split; try done.
    intros before after H. exfalso. apply (occurs_nil "{"). by exists before, after.
  - intros (pre & body & post & -> & -> & Hbody & Hpost & Hleft)%IH.
    exists (String c pre), body, post. repeat split; try done.
    intros [|y before] after H.
    + rewrite append_nil in H. injection H as -> ->.
      simpl in Hhead. by apply dot_star_brace_none.
    + rewrite append_cons in H. injection H as _ ->.
      exact (Hleft before after eq_refl).
Qed.

(** ** The chat handler *)

Lemma arrayField_spec (raw : JsVal) (k : string) :
  String.eqb k "length" = false ->
  arrayField raw k = Ok (array_or_empty (field raw k)).
Proof.
  intros Hk. unfold arrayField, array_or_empty.
  rewrite get_prop_opt_field by done. simpl bind.
  destruct (Array_isArray (field raw k)) eqn:Harr; [|done].
  apply get_prop_field; [|done]. by destruct raw.
Qed.

Lemma array_or_empty_idempotent (v : JsVal) :
  array_or_empty (array_or_empty v) = array_or_empty v.
Proof. by destruct v. Qed.

Lemma clean_loop_nullish_entry (NumberToString : Z -> string)
    (blocked : gset string) (raw cleaned : list JsVal) :
  readable cleaned -> Exists (fun m => nullish m = true) raw ->
  exists who,
    (who = "null" \/ who = "undefined") /\
    clean_loop NumberToString blocked raw cleaned
    = Throw (TypeError ("Cannot read properties of " +:+ who +:+ " (reading 'role')")).
Proof.
  intros Hc Hex. revert cleaned Hc.
  induction raw as [|m raw IH]; intros cleaned Hc; [by inversion Hex|].
  simpl. destruct (nullish m) eqn:Hm.
  - destruct m; try discriminate Hm.
    + exists "undefined". split; [by right | reflexivity].
    + exists "null". split; [by left | reflexivity].
  - rewrite clean_step_spec by done. simpl. apply IH.
    + inversion Hex as [? ? Hhead | ? ? Htail]; [congruence | done].
    + destruct (excluded blocked m); [done|].
      destruct (is_notice m); [by apply readable_pop_if_user|].
      apply Forall_app. split; [done|]. by constructor.
Qed.

Section HandlerExtras.

Variable NumberToString : Z -> string.
Variable JSON_parse : string -> Result JsVal.

Local Abbreviation handle AI_run :=
  (handleChatRequest NumberToString JSON_parse AI_run).

(** The sanitized input of a body *)
Local Abbreviation input_of raw :=
  (buildModelInput NumberToString
     (elements (array_or_empty (field raw "messages")))
     (new_Set (array_or_empty (field raw "blockedUserContents")))).

Lemma tryBlock_spec (AI_run : string -> JsVal -> JsVal -> Result JsVal)
    (raw : JsVal) :
  tryBlock NumberToString AI_run (Ok raw) =
  let* model_input := input_of raw in
  let* aiResponse := AI_run MODEL_ID (JObj [("input", input model_input)]) runOptions in
  let* responseText := extractResponseText aiResponse in
  Ok (successResponse responseText).
Proof.
  unfold tryBlock. simpl bind. by rewrite !arrayField_spec by done.
Qed.

(** X8. Of the request body the handler reads two fields only, and a
    field that is not an array counts as an empty one (so does a body
    that is [null] or not an object): every body is handled like its
    normal form. *)
Theorem handler_reads_two_array_fields
    (AI_run : string -> JsVal -> JsVal -> Result JsVal) (raw : JsVal) :
  handle AI_run (Ok raw) = handle AI_run (Ok (normalized_body raw)).
Proof.
  unfold handleChatRequest. rewrite !tryBlock_spec.
  unfold normalized_body at 1 2. simpl field.
  by rewrite !array_or_empty_idempotent.
Qed.

(** X9. Every answer of the handler is one of four: HTTP 200 with
    [success: true] and the extracted text, or one of the three fixed
    error responses; no other text of a caught error reaches the
    client. The status is 200 exactly for the first. *)
Theorem handler_response_shapes
    (AI_run : string -> JsVal -> JsVal -> Result JsVal)
    (request_json : Result JsVal) :
  exists response,
    handle AI_run request_json = Ok response /\
    ((exists text, response = successResponse text) \/
     response = promptBlockedResponse \/
     response = responseBlockedResponse \/
     response = genericErrorResponse) /\
    (status response = 200 <-> exists text, response = successResponse text).
Proof.
  unfold handleChatRequest.
  destruct (tryBlock NumberToString AI_run request_json) as [r|error] eqn:Htry; simpl.
  - exists r. split; [done|].
    assert (Hr : exists text, r = successResponse text).
    { unfold tryBlock in Htry.
      repeat (apply bind_ok in Htry as (? & _ & Htry)).
      injection Htry as <-. eauto. }
    split; [by left|]. split; [done|]. destruct Hr as [text ->]. done.
  - rewrite catchBlock_spec. eexists. split; [done|].
    destruct (strict_eq _ (JNum 2016)); [|destruct (strict_eq _ (JNum 2017))].
    + split; [auto|]. split; [done|]. intros [text H]. discriminate H.
    + split; [auto|]. split; [done|]. intros [text H]. discriminate H.
    + split; [auto|]. split; [done|]. intros [text H]. discriminate H.
Qed.

(** X10. A request goes through end to end: when the sanitizer returns
    [model_input] for the body, the model is called once with the model
    id, an options object that holds the input alone, and the gateway
    options; if it answers with a string, or with an object whose
    searched elements have a type to read, the response is HTTP 200 with
    the text the resolution order gives. *)
Theorem handler_success
    (AI_run : string -> JsVal -> JsVal -> Result JsVal)
    (raw result : JsVal) (model_input : ModelInput) :
  input_of raw = Ok model_input ->
  AI_run "@cf/openai/gpt-oss-120b"
         (JObj [("input", input model_input)])
         (JObj [("gateway",
                 JObj [("id", JStr "new-gateway");
                       ("skipCache", JBool false);
                       ("cacheTtl", JNum 3600)])])
  = Ok result ->
  (exists s, result = JStr s) \/ (is_object result = true /\ typed_items result) ->
  handle AI_run (Ok raw) = Ok (successResponse (resolve result)).
Proof.
  intros Hinput Hrun Hresult. unfold handleChatRequest.
  rewrite tryBlock_spec, Hinput. simpl bind.
  change MODEL_ID with "@cf/openai/gpt-oss-120b".
  change runOptions with
    (JObj [("gateway",
            JObj [("id", JStr "new-gateway");
                  ("skipCache", JBool false);
                  ("cacheTtl", JNum 3600)])]).
  rewrite Hrun. simpl bind.
  destruct Hresult as [[s ->] | [Hobj Hitems]]; [done|].
  destruct (extractResponseText_total result Hobj Hitems) as [v Hv].
  rewrite Hv. simpl. by rewrite (extractResponseText_ok result v Hobj Hv).
Qed.

(** X11. The inference function matters through that one call only:
    two functions that agree on it give the same answer to the request.
    Nothing else of the request reaches the model: not the instructions,
    not the history. *)
Theorem handler_calls_model_once
    (AI_1 AI_2 : string -> JsVal -> JsVal -> Result JsVal) (raw : JsVal) :
  (forall model_input,
     input_of raw = Ok model_input ->
     AI_1 MODEL_ID (JObj [("input", input model_input)]) runOptions
     = AI_2 MODEL_ID (JObj [("input", input model_input)]) runOptions) ->
  handle AI_1 (Ok raw) = handle AI_2 (Ok raw).
Proof.
  intros Hagree. unfold handleChatRequest. rewrite !tryBlock_spec.
  destruct (input_of raw) as [model_input|e]; simpl bind; [|done].
  by rewrite (Hagree model_input eq_refl).
Qed.

(** X12. A history with an entry that is [null] or [undefined] never
    reaches the model: the sanitizer throws on reading the role, the
    message of that error has no braces, and the answer is the generic
    HTTP 500. *)
Theorem handler_rejects_unreadable_entry
    (AI_run : string -> JsVal -> JsVal -> Result JsVal)
    (raw : JsVal) (items : list JsVal) :
  field raw "messages" = JArr items ->
  Exists (fun m => nullish m = true) items ->
  handle AI_run (Ok raw) = Ok genericErrorResponse.
Proof.
  intros Hmessages Hex. unfold handleChatRequest.
  rewrite tryBlock_spec, Hmessages. simpl elements. unfold buildModelInput.
  destruct (clean_loop_nullish_entry NumberToString
              (new_Set (array_or_empty (field raw "blockedUserContents")))
              items []) as (who & Hwho & ->); [constructor | done |].
  simpl. rewrite catchBlock_spec.
  destruct Hwho as [-> | ->]; reflexivity.
Qed.

(** X13. An inference result that is neither a string nor an object
    ([null], [undefined], a number, a boolean) is taken for an answer
    without text: extraction returns the empty string and the request
    succeeds with it. *)
Theorem handler_empty_answer
    (AI_run : string -> JsVal -> JsVal -> Result JsVal)
    (raw result : JsVal) (model_input : ModelInput) :
  input_of raw = Ok model_input ->
  AI_run MODEL_ID (JObj [("input", input model_input)]) runOptions = Ok result ->
  is_object result = false -> (forall s, result <> JStr s) ->
  extractResponseText result = Ok (JStr EmptyString) /\
  handle AI_run (Ok raw) = Ok (successResponse (JStr EmptyString)).
Proof.
  intros Hinput Hrun Hobj Hstr.
  assert (Hextract : extractResponseText result = Ok (JStr EmptyString)).
  { destruct result as [| |b|n|text| |];
      [reflexivity | reflexivity | by destruct b
      | unfold extractResponseText; simpl; by rewrite andb_false_r
      | by destruct (Hstr text) | discriminate Hobj | discriminate Hobj]. }
  split; [done|]. unfold handleChatRequest.
  by rewrite tryBlock_spec, Hinput; simpl bind; rewrite Hrun; simpl bind;
    rewrite Hextract.
Qed.

End HandlerExtras.

(** X14. An error is classified only through a match of the pattern:
    when the message is not a string, or no opening brace in it has a
    closing brace after it on the same line (a JSON text printed over
    several lines, say), the answer is the generic HTTP 500 whatever
    [JSON.parse] would do. *)
Theorem unmatched_error_is_generic
    (JSON_parse : string -> Result JsVal) (error : JsVal) :
  (forall message,
     field error "message" = JStr message ->
     forall before after,
       message = before +:+ String "{" after ->
       ~ occurs "}" (first_line after)) ->
  catchBlock JSON_parse error = Ok genericErrorResponse.
Proof.
  intros Hno. rewrite catchBlock_spec.
  replace (gateway_error JSON_parse error) with JNull; [done|].
  unfold gateway_error.
  destruct (field error "message") as [| | | |message| |]; try done.
  assert (Hnone : match_braces message = None).
  { apply match_braces_none_at. intros before after Hs.
    apply dot_star_brace_none. by apply (Hno message eq_refl before after). }
  by rewrite Hnone.
Qed.

(** ** [parseGatewayError] *)

Lemma errorEntry_spec (b : JsVal) (k : string) :
  nullish b = false -> String.eqb k "length" = false ->
  errorEntry b k =
  match usable_head (field b k) with
  | Some first =>
      let* code := get_prop first "code" in
      Ok (Some (JObj [("code", field first "code");
                      ("message", field first "message")]))
  | None => Ok None
  end.
Proof.
  intros Hb Hk. unfold errorEntry, usable_head.
  rewrite !(get_prop_field b k) by done. simpl bind.
  destruct (field b k) as [| | | | |[|first rest]|]; try reflexivity.
  simpl. destruct (String.eqb (typeof first) "object"); [|done].
  destruct (nullish first) eqn:Hfirst.
  - by destruct (get_prop_nullish first "code" Hfirst) as [e ->].
  - by rewrite !get_prop_field by done.
Qed.

Lemma stringEntry_spec (b : JsVal) (k : string) :
  nullish b = false -> String.eqb k "length" = false ->
  stringEntry b k =
  Ok (match field b k with
      | JStr s => Some (JObj [("message", JStr s)])
      | _ => None
      end).
Proof.
  intros Hb Hk. unfold stringEntry. rewrite !(get_prop_field b k) by done.
  simpl bind. by destruct (field b k).
Qed.

(** The summary of an element at the head of an error list *)
Lemma head_summary (first : JsVal) :
  exists r,
    (let* code := get_prop first "code" in
     Ok (Some (JObj [("code", field first "code");
                     ("message", field first "message")])))
    = r /\
    (nullish first = true -> exists e, r = Throw e) /\
    (nullish first = false ->
     r = Ok (Some (JObj [("code", field first "code");
                         ("message", field first "message")]))).
Proof.
  eexists. split; [reflexivity|]. split; intros Hfirst.
  - destruct (get_prop_nullish first "code" Hfirst) as [e ->]. simpl. eauto.
  - by rewrite get_prop_field by done.
Qed.

(** X15. [parseGatewayError] never throws, and what it returns is the
    empty object, an object with [code] and [message] read from one list
    element, or an object with a string [message]. *)
Theorem parseGatewayError_total (body : JsVal) :
  exists r,
    parseGatewayError body = Ok r /\
    (r = JObj [] \/
     (exists first, r = JObj [("code", field first "code");
                              ("message", field first "message")]) \/
     (exists s, r = JObj [("message", JStr s)])).
Proof.
  unfold parseGatewayError.
  destruct (truthy body && String.eqb (typeof body) "object") eqn:Hobj;
    [|simpl; eauto].
  assert (Hb : nullish body = false) by (by destruct body).
  simpl first_return.
  rewrite !errorEntry_spec, !stringEntry_spec by done.
  destruct (usable_head (field body "error")) as [first|].
  { destruct (head_summary first) as (r & -> & Hnull & Hok).
    destruct (nullish first).
    - destruct (Hnull eq_refl) as [e ->]. simpl. eauto.
    - rewrite (Hok eq_refl). simpl. eauto 6. }
  simpl bind. destruct (usable_head (field body "errors")) as [first|].
  { destruct (head_summary first) as (r & -> & Hnull & Hok).
    destruct (nullish first).
    - destruct (Hnull eq_refl) as [e ->]. simpl. eauto.
    - rewrite (Hok eq_refl). simpl. eauto 6. }
  simpl bind.
  destruct (field body "error"); simpl; eauto 6;
    destruct (field body "message"); simpl; eauto 6;
    destruct (field body "detail"); simpl; eauto 6.
Qed.

Lemma parseGatewayError_object (body : JsVal) :
  is_object body = true ->
  parseGatewayError body =
  let* returned :=
    try_catch
      (first_return
         [ errorEntry body "error"; errorEntry body "errors";
           stringEntry body "error"; stringEntry body "message";
           stringEntry body "detail" ])
      (fun _ => Ok None) in
  match returned with
  | Some r => Ok r
  | None => Ok (JObj [])
  end.
Proof. intros Hobj. unfold parseGatewayError. by destruct body. Qed.

Lemma parseGatewayError_error_head (body first : JsVal) :
  is_object body = true ->
  usable_head (field body "error") = Some first ->
  parseGatewayError body =
  Ok (if nullish first then JObj []
      else JObj [("code", field first "code");
                 ("message", field first "message")]).
Proof.
  intros Hobj Hhead. assert (Hb : nullish body = false) by (by destruct body).
  rewrite parseGatewayError_object by done. simpl first_return.
  rewrite !errorEntry_spec, Hhead by done.
  destruct (head_summary first) as (r & -> & Hnull & Hok).
  destruct (nullish first).
  - by destruct (Hnull eq_refl) as [e ->].
  - by rewrite (Hok eq_refl).
Qed.

(** X16. The order in which [parseGatewayError] looks: the first element
    of the [error] list, if [typeof] calls it an object, decides; else
    that of the [errors] list; else the first string among [error],
    [message] and [detail]. A [null] at the head of a list counts as an
    object, reading its code throws, and the result is the empty object
    even when a later field would have given a message. *)
Theorem parseGatewayError_priority (body : JsVal) :
  is_object body = true ->
  (forall first,
     usable_head (field body "error") = Some first ->
     parseGatewayError body =
     Ok (if nullish first then JObj []
         else JObj [("code", field first "code");
                    ("message", field first "message")]))
  /\
  (forall first,
     usable_head (field body "error") = None ->
     usable_head (field body "errors") = Some first ->
     parseGatewayError body =
     Ok (if nullish first then JObj []
         else JObj [("code", field first "code");
                    ("message", field first "message")]))
  /\
  (usable_head (field body "error") = None ->
   usable_head (field body "errors") = None ->
   parseGatewayError body =
   Ok (match List.find (fun v => String.eqb (typeof v) "string")
                [field body "error"; field body "message"; field body "detail"]
       with
       | Some v => JObj [("message", v)]
       | None => JObj []
       end)).
Proof.
  intros Hobj. assert (Hb : nullish body = false) by (by destruct body).
  rewrite parseGatewayError_object by done. simpl first_return.
  rewrite !errorEntry_spec, !stringEntry_spec by done.
  split; [|split].
  - intros first ->. destruct (head_summary first) as (r & -> & Hnull & Hok).
    destruct (nullish first).
    + by destruct (Hnull eq_refl) as [e ->].
    + by rewrite (Hok eq_refl).
  - intros first -> ->. simpl bind.
    destruct (head_summary first) as (r & -> & Hnull & Hok).
    destruct (nullish first).
    + by destruct (Hnull eq_refl) as [e ->].
    + by rewrite (Hok eq_refl).
  - intros -> ->. simpl.
    destruct (field body "error"); simpl; try done;
      destruct (field body "message"); simpl; try done;
      destruct (field body "detail"); simpl; done.
Qed.

(** X17. [parseGatewayError] agrees with the classification of the
    [catch] block: when the block finds the code [code] in the JSON text
    of an error message, [parseGatewayError] applied to the parsed text
    returns an object with that code. *)
Theorem parseGatewayError_agrees_with_classification
    (JSON_parse : string -> Result JsVal) (error : JsVal) (code : Z) :
  embedded_code JSON_parse error code ->
  exists message json parsed r,
    field error "message" = JStr message /\
    match_braces message = Some json /\
    JSON_parse json = Ok parsed /\
    parseGatewayError parsed = Ok r /\
    field r "code" = JNum code.
Proof.
  intros (message & json & parsed & first & rest & Hm & Hj & Hp & He & Hc).
  assert (Hobj : is_object parsed = true) by (by destruct parsed).
  assert (Hfirst : exists fields, first = JObj fields)
    by (destruct first; try discriminate Hc; eauto).
  destruct Hfirst as [fields ->].
  exists message, json, parsed,
    (JObj [("code", field (JObj fields) "code");
           ("message", field (JObj fields) "message")]).
  split; [done|]. split; [done|]. split; [done|]. split; [|exact Hc].
  apply (parseGatewayError_error_head parsed (JObj fields) Hobj). by rewrite He.
Qed.

(** ** [fetch] *)

Set Warnings "-clear-no-such-hyp".

Section FetchExtras.

Variable NumberToString : Z -> string.
Variable JSON_parse : string -> Result JsVal.
Variable AI_run : string -> JsVal -> JsVal -> Result JsVal.
Variable Asset : Type.
Variable ASSETS_fetch : Request -> Result Asset.

Local Abbreviation serve :=
  (fetch NumberToString JSON_parse AI_run Asset ASSETS_fetch).
Local Abbreviation chat request :=
  (handleChatRequest NumberToString JSON_parse AI_run (json request)).

Lemma handleChatRequest_status (request_json : Result JsVal) :
  exists r,
    handleChatRequest NumberToString JSON_parse AI_run request_json = Ok r /\
    (status r = 200 \/ status r = 400 \/ status r = 500).
Proof.
  unfold handleChatRequest.
  destruct (tryBlock NumberToString AI_run request_json) as [r|error] eqn:Htry; simpl.
  - exists r. split; [done|]. left. by eapply tryBlock_status.
  - rewrite catchBlock_spec. eexists. split; [done|].
    destruct (strict_eq _ (JNum 2016)); [auto|].
    destruct (strict_eq _ (JNum 2017)); auto.
Qed.

Lemma root_is_not_api (path : string) :
  String.eqb path "/" = true -> String.prefix "/api/" path = false.
Proof. intros ->%String.eqb_eq. reflexivity. Qed.

(** X18. A request under [/api/] is always answered, and never by the
    static assets: with 405 "Method not allowed", with 404 "Not found",
    or with a response of the chat handler, whose status is 200, 400 or
    500. *)
Theorem api_request_always_answered (request : Request) :
  String.prefix "/api/" (pathname request) = true ->
  exists response,
    serve request = Ok response /\
    (response = PlainResponse "Method not allowed" 405 \/
     response = PlainResponse "Not found" 404 \/
     exists r, response = ChatResponse r /\
               (status r = 200 \/ status r = 400 \/ status r = 500)).
Proof.
  intros Hapi. unfold fetch. rewrite Hapi.
  destruct (String.eqb (pathname request) "/") eqn:Hroot.
  { apply root_is_not_api in Hroot. congruence. }
  simpl. destruct (String.eqb (pathname request) "/api/chat").
  - destruct (String.eqb (method request) "POST"); simpl.
    + destruct (handleChatRequest_status (json request)) as (r & -> & Hstatus).
      simpl. eexists. split; [done|]. right. right. by exists r.
    + eexists. split; [done|]. by left.
  - eexists. split; [done|]. right. by left.
Qed.

(** X19. The routes of [fetch], each with its exact condition: the
    static assets serve a request exactly when its path is not under
    [/api/] (the test for the path [/] adds nothing); the chat handler
    runs exactly for POST on [/api/chat]; any other method there gets
    405 and any other path under [/api/] gets 404; and [fetch] throws
    only what the assets throw. *)
Theorem fetch_routes (request : Request) :
  (forall asset,
     serve request = Ok (FromAssets asset) <->
     String.prefix "/api/" (pathname request) = false /\
     ASSETS_fetch request = Ok asset)
  /\
  (forall r,
     serve request = Ok (ChatResponse r) <->
     pathname request = "/api/chat" /\ method request = "POST" /\
     chat request = Ok r)
  /\
  (forall text code,
     serve request = Ok (PlainResponse text code) <->
     (pathname request = "/api/chat" /\ method request <> "POST" /\
      text = "Method not allowed" /\ code = 405) \/
     (String.prefix "/api/" (pathname request) = true /\
      pathname request <> "/api/chat" /\
      text = "Not found" /\ code = 404))
  /\
  (forall e,
     serve request = Throw e <->
     String.prefix "/api/" (pathname request) = false /\
     ASSETS_fetch request = Throw e).
Proof.
  unfold fetch.
  destruct (String.prefix "/api/" (pathname request)) eqn:Hapi.
  - destruct (String.eqb (pathname request) "/") eqn:Hroot.
    { apply root_is_not_api in Hroot. congruence. }
    simpl. destruct (String.eqb (pathname request) "/api/chat") eqn:Hchat.
    + apply String.eqb_eq in Hchat.
      destruct (String.eqb (method request) "POST") eqn:Hpost; simpl.
      * apply String.eqb_eq in Hpost.
        destruct (handleChatRequest_status (json request)) as (r & Hr & _).
        rewrite Hr. simpl. repeat split; naive_solver.
      * apply String.eqb_neq in Hpost. repeat split; naive_solver.
    + apply String.eqb_neq in Hchat. repeat split; naive_solver.
  - rewrite orb_true_r.
    assert (Hchat : pathname request <> "/api/chat").
    { intros H. rewrite H in Hapi. discriminate Hapi. }
    destruct (ASSETS_fetch request) as [asset|e]; simpl;
      repeat split; naive_solver.
Qed.

End FetchExtras.

(** ** The further properties at concrete inputs *)

Lemma sanitizer_idempotent_witness :
  let raw := [msg "system" "s"; msg "user" "a"; notice_message; msg "user" "b"] in
  clean_loop decimal ∅ raw [] = Ok [msg "user" "b"] /\
  clean_loop decimal ∅ [msg "user" "b"] [] = Ok [msg "user" "b"].
Proof.
  intros raw.
  assert (H : clean_loop decimal ∅ raw [] = Ok [msg "user" "b"])
    by (vm_compute; reflexivity).
  split; [exact H|].
  exact (proj1 (sanitizer_idempotent decimal ∅ raw [msg "user" "b"] H)).
Defined.

Lemma block_set_matters_for_user_messages_only_witness :
  (forall m, m ∈ [msg "assistant" "no"; msg "user" "yes"] ->
     blocked_user {["no"]} m = blocked_user ∅ m) /\
  buildModelInput decimal [msg "assistant" "no"; msg "user" "yes"] {["no"]}
  = buildModelInput decimal [msg "assistant" "no"; msg "user" "yes"] ∅.
Proof.
  assert (H : forall m, m ∈ [msg "assistant" "no"; msg "user" "yes"] ->
                blocked_user {["no"]} m = blocked_user ∅ m).
  { intros m Hm. apply list_elem_of_In in Hm.
    destruct Hm as [<- | [<- | []]]; vm_compute; reflexivity. }
  split; [exact H|].
  exact (block_set_matters_for_user_messages_only decimal _ _ _ H).
Defined.

Lemma repeated_notices_pop_repeatedly_witness :
  let users := [msg "user" "a"; msg "user" "b"; msg "user" "c"] in
  let notices := [notice_message; notice_message] in
  Forall (kept_user ∅) users /\ Forall guardrail_notice notices /\
  clean_loop decimal ∅ (users ++ notices) [] = Ok [msg "user" "a"].
Proof.
  intros users notices.
  assert (Hu : Forall (kept_user ∅) users)
    by (repeat constructor; vm_compute; reflexivity).
  assert (Hn : Forall guardrail_notice notices)
    by (repeat constructor; apply is_notice_spec; vm_compute; reflexivity).
  split; [exact Hu|]. split; [exact Hn|].
  exact (repeated_notices_pop_repeatedly decimal ∅ users notices Hu Hn).
Defined.

Lemma notice_detection_ignores_case_witness :
  fold_case "Blocked By Guardrails" = fold_case "blocked by guardrails" /\
  looksLikeGuardrailNotice decimal (msg "assistant" "Blocked By Guardrails")
  = looksLikeGuardrailNotice decimal (msg "assistant" "blocked by guardrails").
Proof.
  split; [vm_compute; reflexivity|].
  apply (notice_detection_ignores_case decimal "assistant"). vm_compute. reflexivity.
Defined.

Lemma transcript_does_not_escape_contents_witness :
  search_ci "blocked by guardrails" "Sure." = false /\
  buildModelInput decimal
    [msg "user" "q"; msg "user" "a"; msg "assistant" "Sure."] ∅
  = buildModelInput decimal
      [msg "user" "q";
       msg "user" ("a" +:+ nl +:+ nl +:+ "Assistant: " +:+ "Sure.")] ∅.
Proof.
  split; [vm_compute; reflexivity|].
  exact (proj1 (transcript_does_not_escape_contents decimal "q" "a" "Sure." eq_refl)).
Defined.

Lemma match_braces_none_witness :
  match_braces ("{" +:+ nl +:+ "}") = None /\
  forall before after,
    "{" +:+ nl +:+ "}" = before +:+ String "{" after ->
    ~ occurs "}" (first_line after).
Proof.
  split; [vm_compute; reflexivity|].
  exact (proj1 (match_braces_none ("{" +:+ nl +:+ "}")) eq_refl).
Defined.

Lemma match_braces_leftmost_greedy_witness :
  match_braces "a { b {x} c } d" = Some "{ b {x} c }" /\
  exists pre body post,
    "a { b {x} c } d" = pre +:+ "{ b {x} c }" +:+ post /\
    "{ b {x} c }" = "{" +:+ body +:+ "}" /\
    first_line body = body /\
    ~ occurs "}" (first_line post) /\
    (forall before after,
       pre = before +:+ String "{" after ->
       ~ occurs "}" (first_line (after +:+ "{ b {x} c }" +:+ post))).
Proof.
  split; [vm_compute; reflexivity|].
  exact (match_braces_leftmost_greedy "a { b {x} c } d" "{ b {x} c }" eq_refl).
Defined.

Lemma handler_success_witness :
  handleChatRequest decimal parse_json structured_run (Ok chat_body)
  = Ok (successResponse (JStr "answer")).
Proof.
  apply (handler_success decimal parse_json structured_run chat_body
           structured_result
           {| instructions := the_instructions; input := JStr "hi" |}).
  - vm_compute. reflexivity.
  - reflexivity.
  - right. split; [reflexivity|]. split; [repeat constructor|].
    intros message [= <-]. repeat constructor.
Defined.

Lemma handler_calls_model_once_witness :
  handleChatRequest decimal parse_json structured_run (Ok chat_body)
  = handleChatRequest decimal parse_json
      (fun model options run => if String.eqb model MODEL_ID
                                then Ok structured_result else Ok JNull)
      (Ok chat_body).
Proof.
  apply (handler_calls_model_once decimal parse_json). intros model_input _.
  reflexivity.
Defined.

Lemma handler_rejects_unreadable_entry_witness :
  let raw := JObj [("messages", JArr [msg "user" "hi"; JNull])] in
  field raw "messages" = JArr [msg "user" "hi"; JNull] /\
  Exists (fun m => nullish m = true) [msg "user" "hi"; JNull] /\
  handleChatRequest decimal parse_json structured_run (Ok raw)
  = Ok genericErrorResponse.
Proof.
  intros raw.
  assert (Hex : Exists (fun m => nullish m = true) [msg "user" "hi"; JNull])
    by (right; left; reflexivity).
  split; [reflexivity|]. split; [exact Hex|].
  exact (handler_rejects_unreadable_entry decimal parse_json structured_run raw
           [msg "user" "hi"; JNull] eq_refl Hex).
Defined.

Lemma handler_empty_answer_witness :
  is_object JNull = false /\
  handleChatRequest decimal parse_json null_run (Ok chat_body)
  = Ok (successResponse (JStr EmptyString)).
Proof.
  split; [reflexivity|].
  refine (proj2 (handler_empty_answer decimal parse_json null_run chat_body JNull
                   {| instructions := the_instructions; input := JStr "hi" |}
                   _ eq_refl eq_refl _)).
  - vm_compute. reflexivity.
  - intros s. discriminate.
Defined.

Lemma unmatched_error_is_generic_witness :
  match_braces multiline_message = None /\
  catchBlock parse_json (error_with multiline_message) = Ok genericErrorResponse.
Proof.
  assert (Hnone : match_braces multiline_message = None)
    by (vm_compute; reflexivity).
  split; [exact Hnone|].
  apply unmatched_error_is_generic. intros message [= <-] before after Hs.
  apply dot_star_brace_none.
  exact (proj1 (match_braces_none_at multiline_message) Hnone before after Hs).
Defined.

Lemma parseGatewayError_priority_witness :
  is_object gateway_body = true /\
  parseGatewayError gateway_body
  = Ok (JObj [("code", JNum 2016); ("message", JStr "x")]).
Proof.
  split; [reflexivity|].
  exact (proj1 (parseGatewayError_priority gateway_body eq_refl)
           (JObj [("code", JNum 2016); ("message", JStr "x")]) eq_refl).
Defined.

Lemma parseGatewayError_agrees_with_classification_witness :
  embedded_code parse_json blocked_prompt_error 2016 /\
  exists message json parsed r,
    field blocked_prompt_error "message" = JStr message /\
    match_braces message = Some json /\
    parse_json json = Ok parsed /\
    parseGatewayError parsed = Ok r /\
    field r "code" = JNum 2016.
Proof.
  assert (Hcode : embedded_code parse_json blocked_prompt_error 2016).
  { eexists _, _, _, _, _. repeat split; vm_compute; reflexivity. }
  split; [exact Hcode|].
  exact (parseGatewayError_agrees_with_classification parse_json
           blocked_prompt_error 2016 Hcode).
Defined.

Lemma api_request_always_answered_witness :
  String.prefix "/api/" (pathname chat_post) = true /\
  exists response,
    fetch decimal parse_json structured_run unit no_assets chat_post = Ok response /\
    (response = PlainResponse "Method not allowed" 405 \/
     response = PlainResponse "Not found" 404 \/
     exists r, response = ChatResponse r /\
               (status r = 200 \/ status r = 400 \/ status r = 500)).
Proof.
  split; [reflexivity|].
  exact (api_request_always_answered decimal parse_json structured_run unit
           no_assets chat_post eq_refl).
Defined.

Lemma fetch_routes_witness :
  let upload :=
    {| pathname := "/api/upload"; method := "POST"; json := Ok chat_body |} in
  fetch decimal parse_json structured_run unit no_assets upload
  = Ok (PlainResponse "Not found" 404).
Proof.
  intros upload.
  destruct (fetch_routes decimal parse_json structured_run unit no_assets upload)
    as (_ & _ & Hplain & _).
  apply Hplain. right. repeat split. discriminate.
Defined.

(** * The classification of errors, with the located text spelled out *)

Lemma first_line_self (c : ascii) (s : string) :
  first_line (String c s) = String c s ->
  is_line_terminator c = false /\ first_line s = s.
Proof.
  simpl. destruct (is_line_terminator c); [discriminate|].
  intros [= H]. done.
Qed.

Lemma dot_star_brace_found (body post : string) :
  first_line body = body -> ~ occurs "}" (first_line post) ->
  dot_star_brace (body +:+ "}" +:+ post) = Some (body +:+ "}").
Proof.
  intros Hbody Hpost. induction body as [|c body IH].
  - rewrite !append_nil, append_cons, append_nil. simpl.
    by rewrite (proj2 (dot_star_brace_none post) Hpost).
  - apply first_line_self in Hbody as [Hc Hbody].
    rewrite (append_cons c body ("}" +:+ post)), (append_cons c body "}").
    change (dot_star_brace (String c (body +:+ "}" +:+ post)))
      with (match (if is_line_terminator c then None
                   else dot_star_brace (body +:+ "}" +:+ post)) with
            | Some m => Some (String c m)
            | None => if Ascii.eqb c "}" then Some (String c EmptyString) else None
            end).
    by rewrite Hc, (IH Hbody).
Qed.

Lemma match_braces_found (message json : string) :
  match_braces message = Some json -> found_by_pattern message json.
Proof.
  unfold found_by_pattern. revert json.
  induction message as [|c rest IH]; intros json; simpl; [done|].
  destruct (if Ascii.eqb c "{" then dot_star_brace rest else None)
    as [m|] eqn:Hhead.
  - destruct (Ascii.eqb c "{") eqn:Hc; [|done].
    apply Ascii.eqb_eq in Hc as ->.
    destruct (dot_star_brace_greedy rest m Hhead)
      as (body & post & -> & -> & Hbody & Hpost).
    intros [= <-]. exists EmptyString, body, post.
    repeat split; try done.
    intros before after H. exfalso. apply (occurs_nil "{"). by exists before, after.
  - intros (pre & body & post & -> & -> & Hbody & Hpost & Hleft)%IH.
    exists (String c pre), body, post. repeat split; try done.
    intros [|y before] after H.
    + rewrite append_nil in H. injection H as -> ->.
      simpl in Hhead. by apply dot_star_brace_none.
    + rewrite append_cons in H. injection H as _ ->.
      exact (Hleft before after eq_refl).
Qed.

Lemma found_match_braces (message json : string) :
  found_by_pattern message json -> match_braces message = Some json.
Proof.
  intros (pre & body & post & -> & -> & Hbody & Hpost & Hleft).
  induction pre as [|c pre IH].
  - rewrite append_nil, !append_cons, append_nil, append_assoc. simpl.
    by rewrite (dot_star_brace_found body post Hbody Hpost).
  - rewrite append_cons. simpl.
    assert (Hhead : (if Ascii.eqb c "{"
                     then dot_star_brace (pre +:+ ("{" +:+ body +:+ "}") +:+ post)
                     else None) = None).
    { destruct (Ascii.eqb c "{") eqn:Hc; [|done].
      apply Ascii.eqb_eq in Hc as ->. apply dot_star_brace_none.
      by apply (Hleft EmptyString pre). }
    rewrite Hhead. apply IH. intros before after ->.
    by apply (Hleft (String c before) after).
Qed.

Section ClassificationProofs.

Variable NumberToString : Z -> string.
Variable JSON_parse : string -> Result JsVal.
Variable AI_run : string -> JsVal -> JsVal -> Result JsVal.

Local Abbreviation handle :=
  (handleChatRequest NumberToString JSON_parse AI_run).

Lemma reported_code_embedded (error : JsVal) (code : Z) :
  reported_code JSON_parse error code <-> embedded_code JSON_parse error code.
Proof.
  unfold reported_code, embedded_code. split.
  - intros (message & json & parsed & first & rest & Hm & Hf & H).
    exists message, json, parsed, first, rest.
    split; [done|]. split; [by apply found_match_braces | done].
  - intros (message & json & parsed & first & rest & Hm & Hf & H).
    exists message, json, parsed, first, rest.
    split; [done|]. split; [by apply match_braces_found | done].
Qed.

Lemma catchBlock_classified (error : JsVal) :
  exists response,
    catchBlock JSON_parse error = Ok response /\
    classified JSON_parse error response.
Proof.
  eexists. split; [apply catchBlock_spec|].
  unfold classified. rewrite !reported_code_embedded, !embedded_code_spec.
  destruct (strict_eq (field (gateway_error JSON_parse error) "code") (JNum 2016))
    eqn:H16.
  - apply strict_eq_num in H16.
    replace (strict_eq (field (gateway_error JSON_parse error) "code") (JNum 2017))
      with false
      by (symmetry; apply not_true_iff_false; rewrite strict_eq_num; congruence).
    repeat split; try done; naive_solver.
  - destruct (strict_eq (field (gateway_error JSON_parse error) "code") (JNum 2017))
      eqn:H17; repeat split; try done; naive_solver.
Qed.

(** C5, as the code has it. The text that counts is the one the pattern
    locates in the message: from the first opening brace that has a
    closing brace after it on its line to the last closing brace of that
    line. The [catch] block always returns a response. It is the HTTP 400
    response with errorType "prompt_blocked" exactly when the message of
    the error is a string, the located text parses, and the parsed value
    is an object whose [error] array starts with an element of code 2016;
    the HTTP 400 response with errorType "response_blocked" exactly when
    that code is 2017; and the generic HTTP 500 response exactly in every
    other case, a failure of [JSON.parse] included. [handleChatRequest]
    answers with that response whenever [request.json()] or the inference
    call throws the error, and no exception leaves it. *)
Theorem error_classification :
  (forall error, exists response,
     catchBlock JSON_parse error = Ok response /\
     classified JSON_parse error response)
  /\
  (forall error, exists response,
     handle (Throw error) = Ok response /\
     classified JSON_parse error response)
  /\
  (forall raw model_input error,
     buildModelInput NumberToString
       (elements (array_or_empty (field raw "messages")))
       (new_Set (array_or_empty (field raw "blockedUserContents")))
     = Ok model_input ->
     AI_run MODEL_ID (JObj [("input", input model_input)]) runOptions
     = Throw error ->
     exists response,
       handle (Ok raw) = Ok response /\
       classified JSON_parse error response)
  /\
  (forall error message json e,
     field error "message" = JStr message ->
     found_by_pattern message json ->
     JSON_parse json = Throw e ->
     catchBlock JSON_parse error = Ok genericErrorResponse)
  /\
  (forall request_json, exists response, handle request_json = Ok response).
Proof.
  split; [exact catchBlock_classified|]. split; [|split; [|split]].
  - intros error. unfold handleChatRequest. simpl. apply catchBlock_classified.
  - intros raw model_input error Hinput Hrun. unfold handleChatRequest.
    rewrite tryBlock_spec, Hinput. simpl bind. rewrite Hrun. simpl.
    apply catchBlock_classified.
  - intros error message json e Hmessage Hfound Hparse.
    rewrite catchBlock_spec. unfold gateway_error.
    by rewrite Hmessage, (found_match_braces _ _ Hfound), Hparse.
  - intros request_json. unfold handleChatRequest.
    destruct (tryBlock NumberToString AI_run request_json) as [r|error]; simpl.
    + eauto.
    + rewrite catchBlock_spec. eauto.
Qed.

End ClassificationProofs.

(** C5 as stated fails: the message holds a JSON text that parses to an
    object whose [error] array starts with an element of code 2016, but a
    closing brace follows it on the line, the pattern takes that brace
    in, the located text does not parse, and the answer is the generic
    HTTP 500. *)
Lemma classification_substring_counterexample :
  (exists pre json post parsed first rest,
     field (error_with trailing_brace_message) "message"
     = JStr (pre +:+ json +:+ post) /\
     parse_json json = Ok parsed /\
     field parsed "error" = JArr (first :: rest) /\
     field first "code" = JNum 2016) /\
  catchBlock parse_json (error_with trailing_brace_message)
  = Ok genericErrorResponse /\
  status genericErrorResponse = 500.
Proof.
  split; [|split; [vm_compute; reflexivity | reflexivity]].
  exists EmptyString, (dq "{'error':[{'code':2016,'message':'x'}]}"),
    " (see })".
  eexists _, _, _. repeat split; vm_compute; reflexivity.
Qed.

Lemma error_classification_witness :
  reported_code parse_json blocked_prompt_error 2016 /\
  exists response,
    handleChatRequest decimal parse_json (failing_run blocked_prompt_error)
      (Ok chat_body)
    = Ok response /\
    status response = 400 /\ errorType response = JStr "prompt_blocked".
Proof.
  assert (Hcode : reported_code parse_json blocked_prompt_error 2016).
  { eexists _, _, _, _, _. split; [reflexivity|].
    split; [apply match_braces_found; vm_compute; reflexivity|].
    repeat split; vm_compute; reflexivity. }
  split; [exact Hcode|].
  destruct (error_classification decimal parse_json
              (failing_run blocked_prompt_error)) as (_ & _ & Hrun & _).
  destruct (Hrun chat_body
              {| instructions := the_instructions; input := JStr "hi" |}
              blocked_prompt_error)
    as (response & Hresponse & Hprompt & _).
  - vm_compute. reflexivity.
  - reflexivity.
  - exists response. split; [exact Hresponse|]. exact (proj2 Hprompt Hcode).
Defined.
